(** * GlickoTR rating update: a shallow embedding of [glicko.ts]

    The TypeScript module computes with the JavaScript [number] type.  The
    program is embedded once, over an interface [Num.Ops] of the operations
    it applies to numbers, and read in two ways:

    - [exact]: numbers are real numbers and every operation is the exact
      one.  Rounding, overflow, [NaN] and [Infinity] do not exist in this
      reading, and [isFinite] answers [true] on every value.  It gives the
      arithmetic the program approximates.
    - [binary64]: numbers are IEEE 754 binary64 values, as in JavaScript.
      Addition, subtraction, multiplication, division and square root are
      correctly rounded; [Math.exp] and [Math.log] return the values
      ECMAScript fixes for the special arguments and are otherwise given by
      two parameters, since the language leaves their accuracy to the
      implementation.  Properties about rounding, [NaN] and [Infinity]
      belong here; they are proved for all values of the two parameters
      where the run meets special arguments only, and otherwise for the
      correctly rounded values at the arguments the run visits.

    The computations of the request handler of [index.ts] that prepare
    the call of the update and the response are embedded as well. *)

From Stdlib Require Import PrimFloat FloatOps FloatAxioms SpecFloat.
From Stdlib Require Import QArith Reals Lra Lia Bool Arith String List.

Set Warnings "-inexact-float".

(** ** The operations on numbers used by the program *)

Module Num.

Class Ops (T : Type) : Type := {
  lit : Q -> T;            (* a decimal literal of the source *)
  ofNat : nat -> T;        (* the value of an integer counter *)
  add : T -> T -> T;
  sub : T -> T -> T;
  mul : T -> T -> T;
  div : T -> T -> T;
  neg : T -> T;
  pow2 : T -> T;           (* [x ** 2] *)
  sqrt : T -> T;           (* [Math.sqrt] *)
  exp : T -> T;            (* [Math.exp] *)
  log : T -> T;            (* [Math.log] *)
  abs : T -> T;            (* [Math.abs] *)
  min : T -> T -> T;       (* [Math.min] *)
  max : T -> T -> T;       (* [Math.max] *)
  PI : T;                  (* [Math.PI] *)
  ltb : T -> T -> bool;    (* [x < y] *)
  leb : T -> T -> bool;    (* [x <= y] *)
  isFinite : T -> bool
}.

End Num.

Arguments Num.lit {T _} q%_Q.

Declare Scope js_scope.
Delimit Scope js_scope with js.
Notation "x + y" := (Num.add x y) : js_scope.
Notation "x - y" := (Num.sub x y) : js_scope.
Notation "x * y" := (Num.mul x y) : js_scope.
Notation "x / y" := (Num.div x y) : js_scope.
Notation "- x" := (Num.neg x) : js_scope.
Notation "x ²" := (Num.pow2 x) : js_scope.
Notation "x <? y" := (Num.ltb x y) : js_scope.
Notation "x <=? y" := (Num.leb x y) : js_scope.
Notation "x >? y" := (Num.ltb y x) : js_scope.
Notation "x >=? y" := (Num.leb y x) : js_scope.
Notation "# q" := (Num.lit q) (at level 1, q at level 0, format "# q") : js_scope.

(** ** Interfaces *)

(** A player's rating parameters on the original scale. *)
Record PlayerRating (T : Type) : Type := mkPlayerRating {
  mu : T;
  phi : T;
  sigma : T
}.

(** A player's rating parameters on the internal Glicko-2 scale. *)
Record Glicko2Rating (T : Type) : Type := mkGlicko2Rating {
  mu_g2 : T;
  phi_g2 : T;
  sigma_g2 : T
}.

(** The object returned by [calculateGlickoTRUpdate]. *)
Record UpdateResult (T : Type) : Type := mkUpdateResult {
  player_new : PlayerRating T;
  opponent_new : PlayerRating T
}.

Arguments mkPlayerRating {T} mu phi sigma.
Arguments mu {T} p.
Arguments phi {T} p.
Arguments sigma {T} p.
Arguments mkGlicko2Rating {T} mu_g2 phi_g2 sigma_g2.
Arguments mu_g2 {T} g.
Arguments phi_g2 {T} g.
Arguments sigma_g2 {T} g.
Arguments mkUpdateResult {T} player_new opponent_new.
Arguments player_new {T} u.
Arguments opponent_new {T} u.

(** How the refinement loop of [determineSigma] is left: through one of its
    [return] statements, or by falling out of the loop (the loop condition
    fails or a [break] is taken) with the current bound [b]. *)
Inductive LoopExit (T : Type) : Type :=
  | Returned (value : T)
  | Exited (b : T).

(** What one turn of the loop body does: leave the loop, or go on to the
    next turn with new values of [a], [b], [f_a] and [f_b]. *)
Inductive LoopStep (T : Type) : Type :=
  | Leave (exit : LoopExit T)
  | Continue (a b f_a f_b : T).

Arguments Returned {T} value.
Arguments Exited {T} b.
Arguments Leave {T} exit.
Arguments Continue {T} a b f_a f_b.

(** ** The program *)

Section Program.

Context {T : Type} {ops : Num.Ops T}.

Local Open Scope js_scope.

(** *** Constants *)

Definition DEFAULT_MU : T := #1500.0.
Definition DEFAULT_PHI : T := #250.0.
Definition DEFAULT_SIGMA : T := #0.06.
Definition TAU : T := #0.5.
Definition EPSILON : T := #0.000001.
Definition SCALING_FACTOR : T := #173.7178.
Definition CLAMP_EPSILON : T := #1e-1.

(** *** Scale conversions *)

Definition scaleDown (rating : PlayerRating T) : Glicko2Rating T :=
  let mu_g2 := (mu rating - DEFAULT_MU) / SCALING_FACTOR in
  let phi_g2 := phi rating / SCALING_FACTOR in
  mkGlicko2Rating mu_g2 phi_g2 (sigma rating).

Definition scaleUp (rating_g2 : Glicko2Rating T) : PlayerRating T :=
  let mu := mu_g2 rating_g2 * SCALING_FACTOR + DEFAULT_MU in
  let phi := phi_g2 rating_g2 * SCALING_FACTOR in
  let min_rating := #0 in
  let max_rating := #5000 in
  let mu := Num.max min_rating (Num.min mu max_rating) in
  mkPlayerRating mu phi (sigma_g2 rating_g2).

(** *** Expected-outcome model *)

Definition reduceImpact (rating_g2 : Glicko2Rating T) : T :=
  #1.0 / Num.sqrt (#1.0 + (#3.0 * (phi_g2 rating_g2)²) / (Num.PI)²).

Definition expectScore (rating_g2 other_rating_g2 : Glicko2Rating T) (impact : T) : T :=
  let exponent := - impact * (mu_g2 rating_g2 - mu_g2 other_rating_g2) in
  let score := #1.0 / (#1.0 + Num.exp exponent) in
  Num.max CLAMP_EPSILON (Num.min score (#1.0 - CLAMP_EPSILON)).

(** *** Weighting policy *)

Definition calculateMatchWeight (status : string) (playerGames opponentGames : T) : T :=
  let COMPLETED := "completed"%string in
  let RETIRED := "retired"%string in
  let WALKOVER := "walkover"%string in
  if String.eqb status WALKOVER then #0.0
  else if String.eqb status COMPLETED then #1.0
  else if String.eqb status RETIRED then
    let total_games := playerGames + opponentGames in
    if total_games <=? #0 then #0.0
    else
      let threshold_games := #18.0 in
      let max_retirement_weight := #0.8 in
      let weight := Num.min #1.0 (total_games / threshold_games) * max_retirement_weight in
      weight
  else #0.0.

(** *** Volatility solver *)

Section DetermineSigma.

Variable rating_g2 : Glicko2Rating T.
Variables difference variance : T.

Let phi : T := phi_g2 rating_g2.
Let sigma : T := sigma_g2 rating_g2.
Let difference_squared : T := difference².
Let alpha : T := Num.log (sigma²).
Let tau_squared : T := TAU².

(** The closure [f] of [determineSigma]. *)
Definition determineSigma_f (x : T) : T :=
  let exp_x := Num.exp x in
  let tmp := phi² + variance + exp_x in
  if tmp <? #1e-15 then (x - alpha) / tau_squared - #1
  else
    let a_term := exp_x * (difference_squared - phi² - variance - exp_x) / (#2 * tmp²) in
    let b_term := (x - alpha) / tau_squared in
    a_term - b_term.

Let f := determineSigma_f.

Definition max_k : nat := 100.

(** The bracketing loop
    [while (k < max_k && alpha - k * TAU >= -700 && f(alpha - k * TAU) >= 0) k += 1],
    returning the final [k].  Each turn increases [k] and the loop stops
    at [max_k] at the latest, so [fuel = max_k] turns always suffice
    (lemma [determineSigma_k_fuel] below). *)
Definition determineSigma_k_cond (k : nat) : bool :=
  (k <? max_k)%nat && (alpha - Num.ofNat k * TAU >=? - #700)
    && (f (alpha - Num.ofNat k * TAU) >=? #0).

Fixpoint determineSigma_k (fuel k : nat) : nat :=
  match fuel with
  | O => k
  | S fuel' =>
      if determineSigma_k_cond k then determineSigma_k fuel' (k + 1) else k
  end.

Definition max_iter : nat := 100.

(** The body of the convergence loop, entered once the loop condition
    holds. *)
Definition determineSigma_body (a b f_a f_b : T) : LoopStep T :=
  if negb (Num.isFinite f_a) || negb (Num.isFinite f_b) then Leave (Returned sigma)
  else if f_a * f_b >=? #0 then
    if variance <? #1e6 then Leave (Returned sigma)
    else Leave (Returned (sigma * #0.9))
  else
    let c := a + (a - b) * f_a / (f_b - f_a) in
    let c := if negb (Num.isFinite c) then (a + b) / #2 else c in
    let f_c := f c in
    (* the recovery block for a non-finite f(c): [None] stands for [break] *)
    let recovered :=
      if negb (Num.isFinite f_c) then
        if Num.abs (b - a) <? EPSILON * #10 then None
        else
          let c := (a + b) / #2 in
          let f_c := f c in
          if negb (Num.isFinite f_c) then None else Some (c, f_c)
      else Some (c, f_c) in
    match recovered with
    | None => Leave (Exited b)
    | Some (c, f_c) =>
        let '(a, f_a) :=
          if f_c * f_b <? #0 then (b, f_b)
          else
            let safe_denom := f_b + f_c in
            if Num.abs safe_denom <? #1e-15 then (a, f_a * #0.5)
            else (a, f_a * (f_b / safe_denom)) in
        let b := c in
        let f_b := f_c in
        if Num.abs (f_b - f_a) <? EPSILON then Leave (Exited b)
        else Continue a b f_a f_b
    end.

(** The loop condition without the iteration count:
    [Math.abs(b - a) > EPSILON]. *)
Definition determineSigma_apart (a b : T) : bool :=
  Num.abs (b - a) >? EPSILON.

(** The convergence loop
    [while (Math.abs(b - a) > EPSILON && iter < max_iter) { body; iter++ }].
    [budget] is [max_iter - iter]: the test [iter < max_iter] is
    [budget <> 0], and [iter++] decrements it. *)
Fixpoint determineSigma_loop (budget : nat) (a b f_a f_b : T) : LoopExit T :=
  match budget with
  | O => Exited b
  | S budget' =>
      if determineSigma_apart a b then
        match determineSigma_body a b f_a f_b with
        | Leave exit => exit
        | Continue a b f_a f_b => determineSigma_loop budget' a b f_a f_b
        end
      else Exited b
  end.

(** The initial bounds [a] and [b]. *)
Definition determineSigma_b0 : T :=
  if difference_squared >? phi² + variance then
    Num.log (difference_squared - phi² - variance)
  else
    let k := determineSigma_k max_k 1 in
    alpha - Num.ofNat k * TAU.

(** The value returned after the loop: what a [return] inside the loop
    gave, or [Math.exp(b / 2)] once the loop is left. *)
Definition determineSigma_result (exit : LoopExit T) : T :=
  match exit with
  | Returned value => value
  | Exited b => Num.exp (b / #2)
  end.

Definition determineSigma : T :=
  let a := alpha in
  let b := determineSigma_b0 in
  let f_a := f a in
  let f_b := f b in
  determineSigma_result (determineSigma_loop max_iter a b f_a f_b).

(** [determineSigma_at budget a b f_a f_b]: one run of [determineSigma]
    arrives at the loop test with these values of the variables, [budget]
    being [max_iter - iter]. *)
Inductive determineSigma_at : nat -> T -> T -> T -> T -> Prop :=
  | at_start :
      determineSigma_at max_iter alpha determineSigma_b0
        (f alpha) (f determineSigma_b0)
  | at_next (budget : nat) (a b f_a f_b a' b' f_a' f_b' : T) :
      determineSigma_at (S budget) a b f_a f_b ->
      determineSigma_apart a b = true ->
      determineSigma_body a b f_a f_b = Continue a' b' f_a' f_b' ->
      determineSigma_at budget a' b' f_a' f_b'.

End DetermineSigma.

(** *** Update orchestrator *)

Definition calculateGlickoTRUpdate
    (playerRating opponentRating : PlayerRating T)
    (playerGames opponentGames : T) (status : string) : UpdateResult T :=
  let matchWeight := calculateMatchWeight status playerGames opponentGames in
  if matchWeight <=? #0 then mkUpdateResult playerRating opponentRating
  else
    let player_g2 := scaleDown playerRating in
    let opponent_g2 := scaleDown opponentRating in
    (* calculations for player *)
    let impactPlayer := reduceImpact opponent_g2 in
    let expectedScorePlayer := expectScore player_g2 opponent_g2 impactPlayer in
    let totalGames := playerGames + opponentGames in
    let actualScorePlayer := if totalGames <=? #0 then #0.5 else playerGames / totalGames in
    let variancePlayer :=
      #1.0 / (impactPlayer² * expectedScorePlayer * (#1.0 - expectedScorePlayer)) in
    let clampedVariancePlayer := Num.min variancePlayer #1e6 in
    let diffTermPlayer := matchWeight * impactPlayer * (actualScorePlayer - expectedScorePlayer) in
    let varianceForSigmaPlayer := clampedVariancePlayer in
    let varianceInvTermPlayer :=
      matchWeight * impactPlayer² * expectedScorePlayer * (#1.0 - expectedScorePlayer) in
    let newSigmaPlayer := determineSigma player_g2 diffTermPlayer varianceForSigmaPlayer in
    let phi_star_player := Num.sqrt ((phi_g2 player_g2)² + newSigmaPlayer²) in
    let newPhiPlayer_g2 := #1.0 / Num.sqrt ((#1.0 / phi_star_player²) + varianceInvTermPlayer) in
    let newMuPlayer_g2 := mu_g2 player_g2 + newPhiPlayer_g2² * diffTermPlayer in
    let updatedPlayer_g2 := mkGlicko2Rating newMuPlayer_g2 newPhiPlayer_g2 newSigmaPlayer in
    (* calculations for opponent *)
    let impactOpponent := reduceImpact player_g2 in
    let expectedScoreOpponent := expectScore opponent_g2 player_g2 impactOpponent in
    let actualScoreOpponent := #1.0 - actualScorePlayer in
    let varianceOpponent :=
      #1.0 / (impactOpponent² * expectedScoreOpponent * (#1.0 - expectedScoreOpponent)) in
    let clampedVarianceOpponent := Num.min varianceOpponent #1e6 in
    let diffTermOpponent :=
      matchWeight * impactOpponent * (actualScoreOpponent - expectedScoreOpponent) in
    let varianceForSigmaOpponent := clampedVarianceOpponent in
    let varianceInvTermOpponent :=
      matchWeight * impactOpponent² * expectedScoreOpponent * (#1.0 - expectedScoreOpponent) in
    let newSigmaOpponent :=
      determineSigma opponent_g2 diffTermOpponent varianceForSigmaOpponent in
    let phi_star_opponent := Num.sqrt ((phi_g2 opponent_g2)² + newSigmaOpponent²) in
    let newPhiOpponent_g2 :=
      #1.0 / Num.sqrt ((#1.0 / phi_star_opponent²) + varianceInvTermOpponent) in
    let newMuOpponent_g2 := mu_g2 opponent_g2 + newPhiOpponent_g2² * diffTermOpponent in
    let updatedOpponent_g2 :=
      mkGlicko2Rating newMuOpponent_g2 newPhiOpponent_g2 newSigmaOpponent in
    let finalPlayerRating := scaleUp updatedPlayer_g2 in
    let finalOpponentRating := scaleUp updatedOpponent_g2 in
    mkUpdateResult finalPlayerRating finalOpponentRating.

Definition createDefaultRating : PlayerRating T :=
  mkPlayerRating DEFAULT_MU DEFAULT_PHI DEFAULT_SIGMA.

End Program.

(** ** Reading 1: exact real arithmetic *)

Definition Rltb (x y : R) : bool := if Rlt_dec x y then true else false.
Definition Rleb (x y : R) : bool := if Rle_dec x y then true else false.

#[global] Instance exact : Num.Ops R := {|
  Num.lit := Q2R;
  Num.ofNat := INR;
  Num.add := Rplus;
  Num.sub := Rminus;
  Num.mul := Rmult;
  Num.div := Rdiv;
  Num.neg := Ropp;
  Num.pow2 := fun x => (x ^ 2)%R;
  Num.sqrt := R_sqrt.sqrt;
  Num.exp := Rtrigo_def.exp;
  Num.log := ln;
  Num.abs := Rabs;
  Num.min := Rmin;
  Num.max := Rmax;
  Num.PI := Rtrigo1.PI;
  Num.ltb := Rltb;
  Num.leb := Rleb;
  Num.isFinite := fun _ => true
|}.

(** The exits the convergence loop can take when its bounds start within
    [lo, hi]: it returns the volatility or its damped value, or it is left
    with a bound [b] still within [lo, hi]. *)
Definition exit_within (rating_g2 : Glicko2Rating R) (lo hi : R) (exit : LoopExit R) : Prop :=
  match exit with
  | Returned value =>
      value = sigma_g2 rating_g2 \/ value = (sigma_g2 rating_g2 * 0.9)%R
  | Exited b => (lo <= b <= hi)%R
  end.

(** ** Reading 2: IEEE 754 binary64 *)

Module B64.

Local Open Scope float_scope.

(** The value of a positive integer; exact below 2^53, which covers every
    numerator and denominator of the literals of the program. *)
Fixpoint of_positive (p : positive) : float :=
  match p with
  | xH => 1
  | xO p' => 2 * of_positive p'
  | xI p' => 2 * of_positive p' + 1
  end.

Definition of_Z (z : Z) : float :=
  match z with
  | Z0 => 0
  | Zpos p => of_positive p
  | Zneg p => - of_positive p
  end.

(** A decimal literal denotes the binary64 value nearest to it: the
    correctly rounded quotient of its numerator and denominator. *)
Definition lit (q : Q) : float := of_Z (Qnum q) / of_positive (Qden q).

Fixpoint ofNat (n : nat) : float :=
  match n with
  | O => 0
  | S n' => ofNat n' + 1
  end.

(** [Math.min] and [Math.max]: [NaN] if an argument is [NaN]; [-0] counts
    as smaller than [+0]. *)
Definition Math_min (x y : float) : float :=
  if is_nan x || is_nan y then nan
  else if x <? y then x
  else if y <? x then y
  else if get_sign x then x else y.

Definition Math_max (x y : float) : float :=
  if is_nan x || is_nan y then nan
  else if x <? y then y
  else if y <? x then x
  else if get_sign x then y else x.

(** [Math.PI], the binary64 value nearest to pi. *)
Definition Math_PI : float := 3.141592653589793.

Section Approximations.

(** What an implementation returns for [Math.exp] and [Math.log] outside
    the arguments for which ECMAScript fixes the result. *)
Variables exp_approx log_approx : float -> float.

(** [Math.exp(x)]: [x] itself for [NaN] and [+Infinity], [+0] for
    [-Infinity], [1] for [+0] and [-0]. *)
Definition Math_exp (x : float) : float :=
  if is_nan x then x
  else if x =? infinity then x
  else if x =? neg_infinity then 0
  else if x =? 0 then 1
  else exp_approx x.

(** [Math.log(x)]: [x] itself for [NaN] and [+Infinity], [+0] for [1],
    [-Infinity] for [+0] and [-0], [NaN] for a negative argument. *)
Definition Math_log (x : float) : float :=
  if is_nan x then x
  else if x =? infinity then x
  else if x =? 1 then 0
  else if x =? 0 then neg_infinity
  else if x <? 0 then nan
  else log_approx x.

End Approximations.

End B64.

(** The binary64 reading.  [x ** 2] is taken as the correctly rounded
    product [x * x]. *)
Definition binary64 (exp_approx log_approx : float -> float) : Num.Ops float := {|
  Num.lit := B64.lit;
  Num.ofNat := B64.ofNat;
  Num.add := PrimFloat.add;
  Num.sub := PrimFloat.sub;
  Num.mul := PrimFloat.mul;
  Num.div := PrimFloat.div;
  Num.neg := PrimFloat.opp;
  Num.pow2 := fun x => PrimFloat.mul x x;
  Num.sqrt := PrimFloat.sqrt;
  Num.exp := B64.Math_exp exp_approx;
  Num.log := B64.Math_log log_approx;
  Num.abs := PrimFloat.abs;
  Num.min := B64.Math_min;
  Num.max := B64.Math_max;
  Num.PI := B64.Math_PI;
  Num.ltb := PrimFloat.ltb;
  Num.leb := PrimFloat.leb;
  Num.isFinite := PrimFloat.is_finite
|}.

(** ** The request handler of [index.ts]: its computations *)

(** One entry of [score.sets]; a field is [None] when the stored object
    lacks it. *)
Record SetScore (T : Type) : Type := mkSetScore {
  p1 : option T;
  p2 : option T
}.

Arguments mkSetScore {T} p1 p2.
Arguments p1 {T} s.
Arguments p2 {T} s.

(** The four counters added to the players' records. *)
Record Increments : Type := mkIncrements {
  p1_wins_inc : nat;
  p1_losses_inc : nat;
  p2_wins_inc : nat;
  p2_losses_inc : nat
}.

Section Handler.

Context {T : Type} {ops : Num.Ops T}.

Local Open Scope js_scope.

(** [x || 0] on a number that may be missing: [x] when it is truthy
    (present, and neither zero nor [NaN], that is, below or above zero),
    and [0] otherwise. *)
Definition orZero (x : option T) : T :=
  match x with
  | Some x => if (x <? #0) || (#0 <? x) then x else #0
  | None => #0
  end.

(** The loop over [matchData.score.sets] that adds up the games of either
    player, returning [(player1GamesWon, player2GamesWon)]. *)
Definition gamesWon (sets : list (SetScore T)) : T * T :=
  fold_left
    (fun (won : T * T) (set : SetScore T) =>
       let '(player1GamesWon, player2GamesWon) := won in
       (player1GamesWon + orZero (p1 set), player2GamesWon + orZero (p2 set)))
    sets (#0, #0).

(** [matchData.score.retired_player_id ? 'retired' : 'completed']: the id
    is absent, [null], or a string, which is truthy unless empty. *)
Definition matchStatusForRating (retired_player_id : option string) : string :=
  match retired_player_id with
  | Some (String _ _) => "retired"
  | _ => "completed"
  end.

(** Steps 4 and 5 of the handler: the update computed for a stored match. *)
Definition updateForMatch (player1Rating player2Rating : PlayerRating T)
    (sets : list (SetScore T)) (retired_player_id : option string) : UpdateResult T :=
  let '(player1GamesWon, player2GamesWon) := gamesWon sets in
  calculateGlickoTRUpdate player1Rating player2Rating
    player1GamesWon player2GamesWon (matchStatusForRating retired_player_id).

End Handler.

(** Step 6 of the handler: who is credited with the win and the loss. *)
Definition winLossIncrements (winner_id player1_id : string) : Increments :=
  let isP1Winner := String.eqb winner_id player1_id in
  mkIncrements (if isP1Winner then 1 else 0) (if isP1Winner then 0 else 1)
               (if isP1Winner then 0 else 1) (if isP1Winner then 1 else 0).

(** [s.includes(searchString)]. *)
Fixpoint includes (s searchString : string) : bool :=
  String.prefix searchString s ||
  match s with
  | EmptyString => false
  | String _ s' => includes s' searchString
  end.

(** The HTTP status the [catch] block of the handler derives from the
    message of the error. *)
Definition errorStatus (errorMessage : string) : nat :=
  let status := 500%nat in
  let status :=
    if includes errorMessage "not found" || includes errorMessage "Could not find"
    then 404%nat else status in
  let status :=
    if includes errorMessage "Missing" || includes errorMessage "missing required score data"
    then 400%nat else status in
  status.

(** ** [Math.exp] and [Math.log] on the arguments of the runs examined

    ECMAScript leaves the accuracy of [Math.exp] and [Math.log] to the
    implementation.  The runs of the update that are examined below in
    binary64 use the correctly rounded values of the two functions on the
    arguments they visit, which the two lists give: each entry pairs an
    argument with the binary64 value nearest to the exact result.  Among
    them are the arguments of a volatility 3e-162, whose square is the
    subnormal 2^-1073: [ln 2^-1073 = -743.7469247408213170...], [exp] of
    the rounded logarithm is [2^-1073] up to 2 parts in 10^14 (1e-323),
    and [exp] of that number less 0.5 is [1.213 * 2^-1074], which rounds
    to [2^-1074] (5e-324).  An argument that is not listed is answered by
    [NaN], which the guards of the solver would show. *)
Definition exp_values : list (float * float) := (
  (-6.126821433520073, 0.00218351037496548) ::
  (-6.626821433520073, 0.0013243659882171922) ::
  (-7.126821433520073, 0.0008032685765343474) ::
  (-7.626821433520073, 0.00048720701965180565) ::
  (-8.126821433520073, 0.00029550599504603564) ::
  (-8.626821433520073, 0.00017923344612431018) ::
  (-9.126821433520073, 0.0001087105803203466) ::
  (-9.626821433520073, 6.593629999944304e-05) ::
  (-10.126821433520073, 3.99923875376723e-05) ::
  (-10.626821433520073, 2.425660919670768e-05) ::
  (-11.126821433520073, 1.471237717847064e-05) ::
  (-11.626821433520073, 8.923507835998889e-06) ::
  (-12.126821433520073, 5.412381094719261e-06) ::
  (-12.626821433520073, 3.282775075996258e-06) ::
  (-13.126821433520073, 1.991103732532201e-06) ::
  (-13.626821433520073, 1.2076654604490426e-06) ::
  (-14.126821433520073, 7.32486128438319e-07) ::
  (-14.626821433520073, 4.4427529471204637e-07) ::
  (-15.126821433520073, 2.6946658759572213e-07) ::
  (-15.626821433520073, 1.6343974714494546e-07) ::
  (-16.12682143352007, 9.913121765908994e-08) ::
  (-16.62682143352007, 6.012612284488447e-08) ::
  (-17.12682143352007, 3.6468336955070624e-08) ::
  (-17.62682143352007, 2.211916447198159e-08) ::
  (-18.12682143352007, 1.3415951419483239e-08) ::
  (-18.62682143352007, 8.13718586513181e-09) ::
  (-19.12682143352007, 4.935452710982712e-09) ::
  (-19.62682143352007, 2.9935033887728495e-09) ::
  (-20.12682143352007, 1.8156515852444002e-09) ::
  (-20.62682143352007, 1.1012483538065747e-09) ::
  (-21.12682143352007, 6.679408905417533e-10) ::
  (-21.62682143352007, 4.051266289893335e-10) ::
  (-22.12682143352007, 2.457217215480557e-10) ::
  (-22.62682143352007, 1.4903775787626626e-10) ::
  (-23.12682143352007, 9.03959696067835e-11) ::
  (-23.62682143352007, 5.4827927080965555e-11) ::
  (-24.12682143352007, 3.32548187830942e-11) ::
  (-24.62682143352007, 2.0170067175134198e-11) ::
  (-25.12682143352007, 1.2233764150182278e-11) ::
  (-25.62682143352007, 7.420153040778821e-12) ::
  (-26.12682143352007, 4.500550318992281e-12) ::
  (-26.62682143352007, 2.729721754048291e-12) ::
  (-27.12682143352007, 1.6556599363148368e-12) ::
  (-27.62682143352007, 1.0042085134328147e-12) ::
  (-28.12682143352007, 6.090832521414479e-13) ::
  (-28.62682143352007, 3.6942766674126866e-13) ::
  (-29.12682143352007, 2.2406920642468058e-13) ::
  (-29.62682143352007, 1.3590484359404775e-13) ::
  (-30.12682143352007, 8.243045444324004e-14) ::
  (-30.62682143352007, 4.999659791387056e-14) ::
  (-31.12682143352007, 3.032446951608718e-14) ::
  (-31.62682143352007, 1.8392720501028e-14) ::
  (-32.12682143352007, 1.115574889939859e-14) ::
  (-32.62682143352007, 6.7663037395407114e-15) ::
  (-33.12682143352007, 4.1039706709596865e-15) ::
  (-33.62682143352007, 2.4891840384984774e-15) ::
  (-34.12682143352007, 1.5097664370166386e-15) ::
  (-34.62682143352007, 9.157196330556938e-16) ::
  (-35.12682143352007, 5.554120331490806e-16) ::
  (-35.62682143352007, 3.368744268782469e-16) ::
  (-36.12682143352007, 2.0432466837477837e-16) ::
  (-36.62682143352007, 1.2392917590491935e-16) ::
  (-37.12682143352007, 7.516684481925373e-17) ::
  (-37.62682143352007, 4.559099597673911e-17) ::
  (-38.12682143352007, 2.765233686672759e-17) ::
  (-38.62682143352007, 1.677199012237226e-17) ::
  (-39.12682143352007, 1.0172726233616218e-17) ::
  (-39.62682143352007, 6.1700703535512576e-18) ::
  (-40.12682143352007, 3.742336842012805e-18) ::
  (-40.62682143352007, 2.26984203365292e-18) ::
  (-41.12682143352007, 1.376728786114971e-18) ::
  (-41.62682143352007, 8.350282188876864e-19) ::
  (-42.12682143352007, 5.064702164806137e-19) ::
  (-42.62682143352007, 3.071897145267869e-19) ::
  (-43.12682143352007, 1.8631998020886758e-19) ::
  (-43.62682143352007, 1.1300878051372925e-19) ::
  (-44.12682143352007, 6.85432901983124e-20) ::
  (-44.62682143352007, 4.15736070228569e-20) ::
  (-45.12682143352007, 2.5215667294207166e-20) ::
  (-45.62682143352007, 1.5294075319049748e-20) ::
  (-46.12682143352007, 9.276325592957948e-21) ::
  (-46.62682143352007, 5.6263758816059695e-21) ::
  (-47.12682143352007, 3.412569475261718e-21) ::
  (-47.62682143352007, 2.069828015145685e-21) ::
  (-48.12682143352007, 1.255414151518003e-21) ::
  (-48.62682143352007, 7.614471735327903e-22) ::
  (-49.12682143352007, 4.618410564991634e-22) ::
  (-49.62682143352007, 2.8012076068081713e-22) ::
  (-50.12682143352007, 1.6990182977494073e-22) ::
  (-50.62682143352007, 1.0305066889977834e-22) ::
  (-51.12682143352007, 6.250339019161072e-23) ::
  (-51.62682143352007, 3.791022248719379e-23) ::
  (-52.12682143352007, 2.299371225501036e-23) ::
  (-52.62682143352007, 1.3946391463273897e-23) ::
  (-53.12682143352007, 8.458914014830156e-24) ::
  (-53.62682143352007, 5.1305906978673755e-24) ::
  (-54.12682143352007, 3.1118605606929993e-24) ::
  (-54.62682143352007, 1.88743883881085e-24) ::
  (-55.12682143352007, 1.1447895240711918e-24) ::
  (-5.626821433520073, 0.0036) ::
  (-55.62682143352007, 6.943499452670116e-25) ::
  (-5.626872868145032, 0.0035998148401120023) ::
  (-5.626872865553708, 0.0035998148494402874) ::
  (-5.6268728655537075, 0.0035998148494402905) ::
  (-2.8134364327768537, 0.059998457058830196) ::
  (-743.7469247408213, 1e-323) ::
  (-744.2469247408213, 5e-324) ::
  (-5.626821433533653, 0.003599999999951111) ::
  (-2.8134107167668265, 0.05999999999959259) ::
  (-0.5, 0.6065306597126334) ::
  (-5.626821433970072, 0.003599999998380003) ::
  (-2.813410716985036, 0.059999999986500026) ::
  nil)%float.

Definition log_values : list (float * float) := (
  (0.0036, -5.626821433520073) ::
  (1e-323, -743.7469247408213) ::
  nil)%float.

Definition table_lookup (values : list (float * float)) (x : float) : float :=
  match find (fun entry : float * float => (fst entry =? x)%float) values with
  | Some entry => snd entry
  | None => nan
  end.

Definition exp_table : float -> float := table_lookup exp_values.

Definition log_table : float -> float := table_lookup log_values.

(** * Properties *)

Open Scope R_scope.

(** ** Exact arithmetic: comparison helpers *)

Lemma Rltb_true (x y : R) : Rltb x y = true <-> x < y.
Proof. unfold Rltb; destruct (Rlt_dec x y); split; intros; try easy. Qed.

Lemma Rltb_false (x y : R) : Rltb x y = false <-> y <= x.
Proof.
  unfold Rltb; destruct (Rlt_dec x y); split; intros; try easy; lra.
Qed.

Lemma Rleb_true (x y : R) : Rleb x y = true <-> x <= y.
Proof. unfold Rleb; destruct (Rle_dec x y); split; intros; try easy. Qed.

Lemma Rleb_false (x y : R) : Rleb x y = false <-> y < x.
Proof.
  unfold Rleb; destruct (Rle_dec x y); split; intros; try easy; lra.
Qed.

(** Decides one boolean comparison of the goal and records the fact. *)
Ltac case_cmp c :=
  let H := fresh "Hcmp" in
  destruct c eqn:H;
  [ first [ apply Rltb_true in H | apply Rleb_true in H ]
  | first [ apply Rltb_false in H | apply Rleb_false in H ] ].

(** Writes a literal [n / d] whose value is an integer as that integer. *)
Ltac whole_literals :=
  repeat match goal with
  | |- context [IZR ?n * / IZR (Zpos ?d)] =>
      let q := eval vm_compute in (Z.div n (Zpos d)) in
      let r := eval vm_compute in (Z.modulo n (Zpos d)) in
      lazymatch r with
      | Z0 => replace (IZR n * / IZR (Zpos d)) with (IZR q) by lra
      end
  end.

(** Writes a literal of the source as the quotient it denotes. *)
Ltac literal_values :=
  repeat match goal with
  | |- context [Q2R ?q] =>
      let q' := eval vm_compute in q in
      let r := eval cbn [Qnum Qden] in (IZR (Qnum q') * / IZR (Zpos (Qden q'))) in
      change (Q2R q) with r
  end.

(** Replaces the operations of the interface by those of the exact
    reading, and the literals by their values. *)
Ltac exact_ops :=
  cbn [Num.lit Num.ofNat Num.add Num.sub Num.mul Num.div Num.neg Num.pow2
       Num.sqrt Num.exp Num.log Num.abs Num.min Num.max Num.PI Num.ltb Num.leb
       Num.isFinite exact];
  literal_values; whole_literals.

(** Proves an equation between two real expressions of the same shape
    whose numerals are written differently. *)
Ltac same_real_upto n :=
  first [ reflexivity | lra
        | lazymatch n with S ?m => f_equal; same_real_upto m end ].

Ltac same_real := same_real_upto 6%nat.

(** The constants in the exact reading. *)
Lemma exact_constants :
  @DEFAULT_MU R _ = 1500 /\ @DEFAULT_PHI R _ = 250 /\ @DEFAULT_SIGMA R _ = 0.06 /\
  @TAU R _ = 0.5 /\ @EPSILON R _ = 0.000001 /\ @SCALING_FACTOR R _ = 173.7178 /\
  @CLAMP_EPSILON R _ = 0.1.
Proof.
  unfold DEFAULT_MU, DEFAULT_PHI, DEFAULT_SIGMA, TAU, EPSILON, SCALING_FACTOR, CLAMP_EPSILON.
  exact_ops. repeat split; lra.
Qed.

(** ** Binary64: comparisons and addition

    Facts about the primitive operations, from their specification in
    [SpecFloat]. *)

Lemma SFcompare_antisym (x y : spec_float) :
  SFcompare y x = option_map CompOpp (SFcompare x y).
Proof.
  destruct x as [sx | sx | | sx mx ex], y as [sy | sy | | sy my ey]; cbn;
    try reflexivity; try (destruct sx; reflexivity); try (destruct sy; reflexivity);
    try (destruct sx, sy; reflexivity).
  assert (Hm : Pos.compare_cont Eq my mx = CompOpp (Pos.compare_cont Eq mx my))
    by (rewrite Pos.compare_cont_antisym; reflexivity).
  rewrite (Z.compare_antisym ex ey), Hm.
  destruct sx, sy; cbn; try reflexivity;
    destruct (ex ?= ey)%Z; cbn; try reflexivity;
    destruct (Pos.compare_cont Eq mx my); reflexivity.
Qed.

(** Binary64 addition is commutative. *)
Lemma float_add_comm (x y : float) : (x + y)%float = (y + x)%float.
Proof.
  apply Prim2SF_inj. rewrite !add_spec. unfold SF64add, SFadd.
  destruct (Prim2SF x) as [sx | sx | | sx mx ex], (Prim2SF y) as [sy | sy | | sy my ey];
    try reflexivity; try (destruct sx, sy; reflexivity).
  rewrite (Z.min_comm ey ex), Z.add_comm. reflexivity.
Qed.

Lemma float_ltb_leb (x y : float) : (x <? y)%float = true -> (x <=? y)%float = true.
Proof.
  rewrite ltb_spec, leb_spec. unfold SFltb, SFleb.
  destruct (SFcompare _ _) as [[]|]; congruence.
Qed.

Lemma float_is_nan_false (x : float) : is_nan x = false -> Prim2SF x <> S754_nan.
Proof.
  unfold is_nan. rewrite FloatAxioms.eqb_spec. intros H E. rewrite E in H. discriminate.
Qed.

(** Two values other than [NaN] are comparable. *)
Lemma float_not_ltb_leb (x y : float) :
  is_nan x = false -> is_nan y = false -> (y <? x)%float = false -> (x <=? y)%float = true.
Proof.
  intros Hx Hy. apply float_is_nan_false in Hx, Hy.
  rewrite ltb_spec, leb_spec. unfold SFltb, SFleb.
  rewrite (SFcompare_antisym (Prim2SF x) (Prim2SF y)).
  destruct (Prim2SF x) as [sx | sx | | sx mx ex], (Prim2SF y) as [sy | sy | | sy my ey];
    try congruence; cbn;
    try (destruct sx; cbn; congruence); try (destruct sy; cbn; congruence);
    try (destruct sx, sy; cbn; congruence).
  destruct sx, sy; cbn; try congruence;
    destruct (ex ?= ey)%Z; cbn; try congruence;
    destruct (Pos.compare_cont Eq mx my); cbn; congruence.
Qed.

(** Two binary64 values that [==] tells apart are different. *)
Lemma float_neq (x y : float) :
  (x =? y)%float = false -> (y =? y)%float = true -> x <> y.
Proof. intros Hxy Hyy E. rewrite E in Hxy. congruence. Qed.

(** [Math.min(x, hi)] is at most [hi], and [Math.max(lo, y)] lies between
    [lo] and any bound of [y] above [lo], unless an argument is [NaN]. *)
Lemma Math_min_upper (x hi : float) :
  is_nan x = false -> is_nan hi = false ->
  is_nan (B64.Math_min x hi) = false /\ (B64.Math_min x hi <=? hi)%float = true.
Proof.
  intros Hx Hhi. unfold B64.Math_min. rewrite Hx, Hhi. cbn [orb].
  assert (Hrefl : (hi <=? hi)%float = true).
  { apply float_not_ltb_leb; try assumption.
    rewrite ltb_spec. unfold SFltb.
    pose proof (SFcompare_antisym (Prim2SF hi) (Prim2SF hi)) as H.
    destruct (SFcompare (Prim2SF hi) (Prim2SF hi)) as [[]|]; cbn in H; congruence. }
  destruct (x <? hi)%float eqn:Hlt.
  { split; [assumption | now apply float_ltb_leb]. }
  destruct (hi <? x)%float eqn:Hgt.
  { split; assumption. }
  destruct (get_sign x).
  - split; [assumption | now apply float_not_ltb_leb].
  - split; assumption.
Qed.

Lemma Math_max_lower (lo y hi : float) :
  is_nan lo = false -> is_nan y = false -> get_sign lo = false ->
  (lo <=? lo)%float = true -> (lo <=? hi)%float = true -> (y <=? hi)%float = true ->
  (lo <=? B64.Math_max lo y)%float = true /\ (B64.Math_max lo y <=? hi)%float = true.
Proof.
  intros Hlo Hy Hsign Hrefl Hlohi Hyhi. unfold B64.Math_max.
  rewrite Hlo, Hy, Hsign. cbn [orb].
  destruct (lo <? y)%float eqn:Hlt.
  { split; [now apply float_ltb_leb | assumption]. }
  destruct (y <? lo)%float; split; assumption.
Qed.

(** ** Weighting policy *)

Lemma calculateMatchWeight_walkover (playerGames opponentGames : R) :
  calculateMatchWeight "walkover" playerGames opponentGames = 0.
Proof. unfold calculateMatchWeight. cbn [String.eqb Ascii.eqb Bool.eqb]. exact_ops. lra. Qed.

Lemma calculateMatchWeight_completed (playerGames opponentGames : R) :
  calculateMatchWeight "completed" playerGames opponentGames = 1.
Proof. unfold calculateMatchWeight. cbn [String.eqb Ascii.eqb Bool.eqb]. exact_ops. lra. Qed.

Lemma calculateMatchWeight_retired (playerGames opponentGames : R) :
  calculateMatchWeight "retired" playerGames opponentGames =
  if Rleb (playerGames + opponentGames) 0 then 0
  else Rmin 1 ((playerGames + opponentGames) / 18) * 0.8.
Proof.
  unfold calculateMatchWeight. cbn [String.eqb Ascii.eqb Bool.eqb]. exact_ops.
  destruct (Rleb (playerGames + opponentGames) 0); same_real.
Qed.

Lemma calculateMatchWeight_unknown (status : string) (playerGames opponentGames : R) :
  status <> "completed"%string -> status <> "retired"%string ->
  status <> "walkover"%string ->
  calculateMatchWeight status playerGames opponentGames = 0.
Proof.
  intros Hc Hr Hw. unfold calculateMatchWeight.
  apply String.eqb_neq in Hc, Hr, Hw. rewrite Hc, Hr, Hw. exact_ops. lra.
Qed.

(** Whatever the status, the weight is one of the three shapes of the
    source: 0, 1, or the retirement ramp. *)
Lemma calculateMatchWeight_cases (status : string) (playerGames opponentGames : R) :
  calculateMatchWeight status playerGames opponentGames = 0 \/
  calculateMatchWeight status playerGames opponentGames = 1 \/
  (status = "retired"%string /\ 0 < playerGames + opponentGames /\
   calculateMatchWeight status playerGames opponentGames =
     Rmin 1 ((playerGames + opponentGames) / 18) * 0.8).
Proof.
  destruct (String.eqb_spec status "walkover") as [-> | Hw].
  { left. apply calculateMatchWeight_walkover. }
  destruct (String.eqb_spec status "completed") as [-> | Hc].
  { right; left. apply calculateMatchWeight_completed. }
  destruct (String.eqb_spec status "retired") as [-> | Hr].
  - rewrite calculateMatchWeight_retired.
    case_cmp (Rleb (playerGames + opponentGames) 0).
    + now left.
    + right; right. repeat split; try lra.
  - left. now apply calculateMatchWeight_unknown.
Qed.

Lemma calculateMatchWeight_range (status : string) (playerGames opponentGames : R) :
  0 <= calculateMatchWeight status playerGames opponentGames <= 1.
Proof.
  destruct (calculateMatchWeight_cases status playerGames opponentGames)
    as [-> | [-> | (_ & Ht & ->)]]; try lra.
  set (t := playerGames + opponentGames) in *.
  pose proof (Rmin_l 1 (t / 18)).
  assert (0 < Rmin 1 (t / 18)) by (apply Rmin_glb_lt; lra).
  lra.
Qed.

(** A weight of zero (or less) short-circuits the update. *)
Lemma calculateGlickoTRUpdate_zero_weight
    (playerRating opponentRating : PlayerRating R)
    (playerGames opponentGames : R) (status : string) :
  calculateMatchWeight status playerGames opponentGames <= 0 ->
  calculateGlickoTRUpdate playerRating opponentRating playerGames opponentGames status
  = mkUpdateResult playerRating opponentRating.
Proof.
  intros Hw. unfold calculateGlickoTRUpdate. exact_ops.
  apply Rleb_true in Hw. rewrite Hw. reflexivity.
Qed.

(** C2 (as amended): the weight depends on the status and the two scores
    only, there being no category and no visibility input: it is 1 for
    completed, the retirement ramp for retired with a positive total and 0
    in every other case, and it always lies in [0, 1], so nothing is ever
    multiplied by 1.2. *)
Theorem C2_weight_from_status_and_scores (status : string) (playerGames opponentGames : R) :
  calculateMatchWeight status playerGames opponentGames
  = (if String.eqb status "completed" then 1
     else if String.eqb status "retired" && Rltb 0 (playerGames + opponentGames)
     then Rmin 1 ((playerGames + opponentGames) / 18) * 0.8
     else 0) /\
  0 <= calculateMatchWeight status playerGames opponentGames <= 1.
Proof.
  split; [ | apply calculateMatchWeight_range ].
  destruct (String.eqb_spec status "completed") as [-> | Hc].
  { apply calculateMatchWeight_completed. }
  destruct (String.eqb_spec status "retired") as [-> | Hr]; simpl.
  - rewrite calculateMatchWeight_retired.
    case_cmp (Rleb (playerGames + opponentGames) 0);
      case_cmp (Rltb 0 (playerGames + opponentGames)); try reflexivity; lra.
  - destruct (String.eqb_spec status "walkover") as [-> | Hw].
    + apply calculateMatchWeight_walkover.
    + now apply calculateMatchWeight_unknown.
Qed.

(** C2 (as stated) fails: for a contest scored 7 to 5 no status makes the
    weight 0.6 (a tiebreak), 0.72 (a public tiebreak) or 1.2 (a public
    completed contest). *)
Lemma C2_no_tiebreak_weight :
  ~ (exists status : string,
       calculateMatchWeight status 7 5 = 0.6 \/
       calculateMatchWeight status 7 5 = 0.72 \/
       calculateMatchWeight status 7 5 = 1.2).
Proof.
  intros [status H].
  destruct (calculateMatchWeight_cases status 7 5) as [E | [E | (_ & _ & E)]];
    rewrite E in H; try lra.
  rewrite Rmin_right in H by lra. lra.
Qed.

(** In either reading, a status that is neither completed nor retired has
    the weight [0.0], which the guard [matchWeight <= 0] of the update
    catches. *)
Lemma calculateMatchWeight_other {T : Type} {ops : Num.Ops T}
    (status : string) (playerGames opponentGames : T) :
  status <> "completed"%string -> status <> "retired"%string ->
  calculateMatchWeight status playerGames opponentGames = Num.lit 0.0.
Proof.
  intros Hc Hr. unfold calculateMatchWeight.
  apply String.eqb_neq in Hc, Hr. rewrite Hc, Hr.
  destruct (String.eqb status "walkover"); reflexivity.
Qed.

Lemma calculateGlickoTRUpdate_other_binary64
    (exp_approx log_approx : float -> float)
    (playerRating opponentRating : PlayerRating float)
    (playerGames opponentGames : float) (status : string) :
  status <> "completed"%string -> status <> "retired"%string ->
  @calculateGlickoTRUpdate float (binary64 exp_approx log_approx)
    playerRating opponentRating playerGames opponentGames status
  = mkUpdateResult playerRating opponentRating.
Proof.
  intros Hc Hr. unfold calculateGlickoTRUpdate.
  rewrite (calculateMatchWeight_other status playerGames opponentGames Hc Hr).
  reflexivity.
Qed.

(** C3: with status walkover the weight is 0 and the update returns both
    input ratings unchanged, field for field; in the binary64 reading too
    the two records returned are the two records given. *)
Theorem C3_walkover_identity
    (playerRating opponentRating : PlayerRating R) (playerGames opponentGames : R) :
  calculateMatchWeight "walkover" playerGames opponentGames = 0 /\
  calculateGlickoTRUpdate playerRating opponentRating playerGames opponentGames "walkover"
  = mkUpdateResult playerRating opponentRating /\
  (forall (exp_approx log_approx : float -> float)
          (playerRating64 opponentRating64 : PlayerRating float)
          (playerGames64 opponentGames64 : float),
     @calculateGlickoTRUpdate float (binary64 exp_approx log_approx)
       playerRating64 opponentRating64 playerGames64 opponentGames64 "walkover"
     = mkUpdateResult playerRating64 opponentRating64).
Proof.
  split; [ | split ].
  - apply calculateMatchWeight_walkover.
  - apply calculateGlickoTRUpdate_zero_weight.
    rewrite calculateMatchWeight_walkover. lra.
  - intros. apply calculateGlickoTRUpdate_other_binary64; discriminate.
Qed.

(** C10: a status other than completed, retired and walkover has weight 0,
    and the update then returns both input ratings unchanged (in the
    binary64 reading as well). *)
Theorem C10_unknown_status_identity
    (playerRating opponentRating : PlayerRating R)
    (playerGames opponentGames : R) (status : string) :
  status <> "completed"%string -> status <> "retired"%string ->
  status <> "walkover"%string ->
  calculateMatchWeight status playerGames opponentGames = 0 /\
  calculateGlickoTRUpdate playerRating opponentRating playerGames opponentGames status
  = mkUpdateResult playerRating opponentRating /\
  (forall (exp_approx log_approx : float -> float)
          (playerRating64 opponentRating64 : PlayerRating float)
          (playerGames64 opponentGames64 : float),
     @calculateGlickoTRUpdate float (binary64 exp_approx log_approx)
       playerRating64 opponentRating64 playerGames64 opponentGames64 status
     = mkUpdateResult playerRating64 opponentRating64).
Proof.
  intros Hc Hr Hw.
  pose proof (calculateMatchWeight_unknown status playerGames opponentGames Hc Hr Hw) as H0.
  split; [exact H0 | split ].
  - apply calculateGlickoTRUpdate_zero_weight. rewrite H0. lra.
  - intros. apply calculateGlickoTRUpdate_other_binary64; assumption.
Qed.

Lemma C10_unknown_status_identity_witness :
  calculateMatchWeight "tiebreak" 7 5 = 0 /\
  calculateGlickoTRUpdate createDefaultRating createDefaultRating 7 5 "tiebreak"
  = mkUpdateResult createDefaultRating createDefaultRating.
Proof.
  pose proof (C10_unknown_status_identity createDefaultRating createDefaultRating
                7 5 "tiebreak") as H.
  split; apply H; discriminate.
Defined.

(** C4: for a retired contest with a positive total the weight is
    [min(1, total/18) * 0.8]; it is 0.4 at total 9, 0.8 from total 18 on,
    and 0 when the total is 0 or less. *)
Theorem C4_retired_weight (playerGames opponentGames : R) :
  (0 <= playerGames + opponentGames ->
   calculateMatchWeight "retired" playerGames opponentGames
   = Rmin 1 ((playerGames + opponentGames) / 18) * 0.8) /\
  (playerGames + opponentGames = 9 ->
   calculateMatchWeight "retired" playerGames opponentGames = 0.4) /\
  (18 <= playerGames + opponentGames ->
   calculateMatchWeight "retired" playerGames opponentGames = 0.8) /\
  (playerGames + opponentGames <= 0 ->
   calculateMatchWeight "retired" playerGames opponentGames = 0).
Proof.
  rewrite calculateMatchWeight_retired.
  set (t := playerGames + opponentGames).
  repeat split; intros Ht; case_cmp (Rleb t 0); try lra.
  - assert (t = 0) as -> by lra.
    rewrite Rmin_right; lra.
  - rewrite Ht. rewrite Rmin_right; lra.
  - rewrite Rmin_left; lra.
Qed.

Lemma C4_retired_weight_witness :
  calculateMatchWeight "retired" 5 4 = 0.4 /\
  calculateMatchWeight "retired" 12 7 = 0.8 /\
  calculateMatchWeight "retired" 0 0 = 0 /\
  calculateMatchWeight "retired" 2 1 = Rmin 1 ((2 + 1) / 18) * 0.8.
Proof.
  split; [ | split; [ | split ] ].
  - apply (C4_retired_weight 5 4); lra.
  - apply (C4_retired_weight 12 7); lra.
  - apply (C4_retired_weight 0 0); lra.
  - apply (C4_retired_weight 2 1); lra.
Defined.

(** ** Scale conversions *)

(** The clamp of [scaleUp] keeps the rating within [0, 5000]. *)
Lemma scaleUp_clamped (rating_g2 : Glicko2Rating R) :
  0 <= mu (scaleUp rating_g2) <= 5000.
Proof.
  unfold scaleUp, DEFAULT_MU, SCALING_FACTOR; cbn [mu]. exact_ops.
  split.
  - apply Rmax_l.
  - apply Rmax_lub; [lra | apply Rmin_r].
Qed.

(** Going up and then down again gives the internal rating back whenever
    the clamp did not act. *)
Lemma scaleDown_scaleUp (rating_g2 : Glicko2Rating R) :
  0 <= mu_g2 rating_g2 * 173.7178 + 1500 <= 5000 ->
  scaleDown (scaleUp rating_g2) = rating_g2.
Proof.
  intros [Hlo Hhi]. destruct rating_g2 as [m p s]; cbn [mu_g2] in *.
  unfold scaleDown, scaleUp, DEFAULT_MU, SCALING_FACTOR; cbn [mu phi sigma mu_g2 phi_g2 sigma_g2].
  exact_ops.
  rewrite (Rmin_left _ 5000) by lra.
  rewrite Rmax_right by lra.
  f_equal; field.
Qed.

(** In exact arithmetic [scaleUp] after [scaleDown] gives back a rating
    record whose rating lies in [0, 5000]. *)
Lemma scaleUp_scaleDown (rating : PlayerRating R) :
  0 <= mu rating <= 5000 -> scaleUp (scaleDown rating) = rating.
Proof.
  intros [Hlo Hhi]. destruct rating as [m p s]; cbn [mu phi sigma] in *.
  unfold scaleUp, scaleDown, DEFAULT_MU, SCALING_FACTOR;
    cbn [mu phi sigma mu_g2 phi_g2 sigma_g2].
  exact_ops.
  replace ((m - 1500) / (1737178 * / 10000) * (1737178 * / 10000) + 1500) with m
    by (field; lra).
  rewrite (Rmin_left m 5000) by exact Hhi.
  rewrite Rmax_right by exact Hlo.
  f_equal. field.
Qed.

(** The formulas of the two conversions, in exact arithmetic. *)
Lemma scale_formulas (rating : PlayerRating R) (rating_g2 : Glicko2Rating R) :
  scaleDown rating
  = mkGlicko2Rating ((mu rating - 1500) / 173.7178) (phi rating / 173.7178) (sigma rating) /\
  scaleUp rating_g2
  = mkPlayerRating (Rmax 0 (Rmin (mu_g2 rating_g2 * 173.7178 + 1500) 5000))
      (phi_g2 rating_g2 * 173.7178) (sigma_g2 rating_g2).
Proof.
  split.
  - unfold scaleDown, DEFAULT_MU, SCALING_FACTOR. exact_ops. same_real.
  - unfold scaleUp, DEFAULT_MU, SCALING_FACTOR. exact_ops. same_real.
Qed.

(** In binary64 the clamp of [scaleUp] keeps the rating within
    [0, 5000] as well, unless the rating is [NaN]. *)
Lemma scaleUp_clamped_binary64 (exp_approx log_approx : float -> float)
    (rating_g2 : Glicko2Rating float) :
  let m := mu (@scaleUp float (binary64 exp_approx log_approx) rating_g2) in
  is_nan m = true \/ ((0 <=? m)%float = true /\ (m <=? 5000)%float = true).
Proof.
  cbv zeta. unfold scaleUp. cbn [mu Num.max Num.min Num.lit binary64].
  change (B64.lit 0%Q) with 0%float. change (B64.lit 5000%Q) with 5000%float.
  set (x := Num.add _ _).
  destruct (is_nan x) eqn:Hnan.
  - left. unfold B64.Math_min. rewrite Hnan. reflexivity.
  - right.
    destruct (Math_min_upper x 5000 Hnan eq_refl) as [Hn Hle].
    apply Math_max_lower; try assumption; reflexivity.
Qed.

(** C8 (as amended): [scaleDown] computes [(rating - 1500) / 173.7178]
    and [deviation / 173.7178] and keeps the volatility; [scaleUp] scales
    the deviation back by the same factor, keeps the volatility and clamps
    the rating to [0, 5000].  In exact arithmetic [scaleUp] after
    [scaleDown] gives back every rating record whose rating is in
    [0, 5000].  In binary64 the same formulas are evaluated with a rounding
    at each operation: the volatility comes back as it was, the recovered
    rating is [NaN] or within [0, 5000], and the default rating comes back
    unchanged; the rating and the deviation of other records come back up
    to rounding only, as the record [{5, 11, 0.06}] below shows. *)
Theorem C8_scale_roundtrip_up_to_rounding :
  (forall rating : PlayerRating R,
     0 <= mu rating <= 5000 -> scaleUp (scaleDown rating) = rating) /\
  (forall (rating : PlayerRating R) (rating_g2 : Glicko2Rating R),
     scaleDown rating
     = mkGlicko2Rating ((mu rating - 1500) / 173.7178) (phi rating / 173.7178)
         (sigma rating) /\
     scaleUp rating_g2
     = mkPlayerRating (Rmax 0 (Rmin (mu_g2 rating_g2 * 173.7178 + 1500) 5000))
         (phi_g2 rating_g2 * 173.7178) (sigma_g2 rating_g2) /\
     0 <= mu (scaleUp rating_g2) <= 5000) /\
  (forall (exp_approx log_approx : float -> float)
          (rating : PlayerRating float) (rating_g2 : Glicko2Rating float),
     let scaleDown64 := @scaleDown float (binary64 exp_approx log_approx) in
     let scaleUp64 := @scaleUp float (binary64 exp_approx log_approx) in
     let default64 := @createDefaultRating float (binary64 exp_approx log_approx) in
     (scaleDown64 rating
      = mkGlicko2Rating ((mu rating - 1500) / 173.7178) (phi rating / 173.7178)
          (sigma rating) /\
      scaleUp64 rating_g2
      = mkPlayerRating
          (B64.Math_max 0 (B64.Math_min (mu_g2 rating_g2 * 173.7178 + 1500) 5000))
          (phi_g2 rating_g2 * 173.7178) (sigma_g2 rating_g2) /\
      sigma (scaleUp64 (scaleDown64 rating)) = sigma rating /\
      (is_nan (mu (scaleUp64 rating_g2)) = true \/
       (0 <=? mu (scaleUp64 rating_g2)) = true /\
       (mu (scaleUp64 rating_g2) <=? 5000) = true) /\
      scaleUp64 (scaleDown64 default64) = default64)%float).
Proof.
  split; [ | split ].
  - apply scaleUp_scaleDown.
  - intros rating rating_g2.
    destruct (scale_formulas rating rating_g2) as [Hdown Hup].
    repeat split; try assumption; apply scaleUp_clamped.
  - intros exp_approx log_approx rating rating_g2. cbv zeta.
    split; [ | split; [ | split; [ | split ] ] ].
    + reflexivity.
    + reflexivity.
    + reflexivity.
    + apply scaleUp_clamped_binary64.
    + vm_compute. reflexivity.
Qed.

Lemma C8_scale_roundtrip_up_to_rounding_witness :
  scaleUp (scaleDown (mkPlayerRating 1620 85 0.06)) = mkPlayerRating 1620 85 0.06.
Proof.
  apply (proj1 C8_scale_roundtrip_up_to_rounding (mkPlayerRating 1620 85 0.06)).
  cbn [mu]; lra.
Defined.

(** C8 (as stated) fails in the binary64 reading, whatever [Math.exp] and
    [Math.log] are: for the rating record [{5, 11, 0.06}], whose rating is in
    [0, 5000], [scaleUp] after [scaleDown] gives the rating
    5.000000000000227 and the deviation 10.999999999999998. *)
Lemma C8_roundtrip_inexact_binary64 :
  ~ (exists exp_approx log_approx : float -> float,
       forall rating : PlayerRating float,
         (0 <=? mu rating)%float = true -> (mu rating <=? 5000)%float = true ->
         @scaleUp float (binary64 exp_approx log_approx)
           (@scaleDown float (binary64 exp_approx log_approx) rating)
         = rating).
Proof.
  intros (exp_approx & log_approx & H).
  specialize (H (mkPlayerRating 5 11 0.06)%float eq_refl eq_refl).
  apply (f_equal mu) in H. revert H.
  apply float_neq; vm_compute; reflexivity.
Qed.

(** The values that come back for [{5, 11, 0.06}], and a record that does
    come back unchanged. *)
Lemma scale_roundtrip_binary64_values (exp_approx log_approx : float -> float) :
  (@scaleUp float (binary64 exp_approx log_approx)
     (@scaleDown float (binary64 exp_approx log_approx) (mkPlayerRating 5 11 0.06))
   = mkPlayerRating 5.0000000000002274 10.999999999999998 0.06 /\
   @scaleUp float (binary64 exp_approx log_approx)
     (@scaleDown float (binary64 exp_approx log_approx) (mkPlayerRating 1500 250 0.06))
   = mkPlayerRating 1500 250 0.06)%float.
Proof. split; vm_compute; reflexivity. Qed.

(** ** Expected-outcome model *)

(** C9: [expectScore] is the logistic value
    [1 / (1 + exp(-impact * (mu_self - mu_opp)))] clamped into [0.1, 0.9];
    it is never 0 and never 1. *)
Theorem C9_expectScore_clamped (rating_g2 other_rating_g2 : Glicko2Rating R) (impact : R) :
  expectScore rating_g2 other_rating_g2 impact
  = Rmax 0.1
      (Rmin (1 / (1 + exp (- impact * (mu_g2 rating_g2 - mu_g2 other_rating_g2)))) 0.9) /\
  0.1 <= expectScore rating_g2 other_rating_g2 impact <= 0.9 /\
  expectScore rating_g2 other_rating_g2 impact <> 0 /\
  expectScore rating_g2 other_rating_g2 impact <> 1.
Proof.
  assert (Heq : expectScore rating_g2 other_rating_g2 impact
    = Rmax 0.1
        (Rmin (1 / (1 + exp (- impact * (mu_g2 rating_g2 - mu_g2 other_rating_g2)))) 0.9)).
  { unfold expectScore, CLAMP_EPSILON. exact_ops. same_real. }
  assert (Hrange : 0.1 <= expectScore rating_g2 other_rating_g2 impact <= 0.9).
  { rewrite Heq. split.
    - apply Rmax_l.
    - apply Rmax_lub; [lra | apply Rmin_r]. }
  repeat split; try tauto; lra.
Qed.

(** ** Volatility solver: the guards at the start of a turn *)

(** In either reading: when [f_a] and [f_b] are finite and
    [f_a * f_b >= 0], the loop body returns the volatility, damped by 0.9
    unless [variance < 1e6]. *)
Lemma determineSigma_body_invalid_finite {T : Type} {ops : Num.Ops T}
    (rating_g2 : Glicko2Rating T) (difference variance a b f_a f_b : T) :
  Num.isFinite f_a = true -> Num.isFinite f_b = true ->
  Num.leb (Num.lit 0) (Num.mul f_a f_b) = true ->
  determineSigma_body rating_g2 difference variance a b f_a f_b
  = Leave (Returned (if Num.ltb variance (Num.lit 1e6) then sigma_g2 rating_g2
                     else Num.mul (sigma_g2 rating_g2) (Num.lit 0.9))).
Proof.
  intros Ha Hb Hsign. unfold determineSigma_body.
  rewrite Ha, Hb, Hsign. cbn [negb orb].
  destruct (Num.ltb variance (Num.lit 1e6)); reflexivity.
Qed.

(** In either reading, the value of the solver is the value of the loop
    resumed at any point the run arrives at. *)
Lemma determineSigma_at_value {T : Type} {ops : Num.Ops T}
    (rating_g2 : Glicko2Rating T) (difference variance : T)
    (budget : nat) (a b f_a f_b : T) :
  determineSigma_at rating_g2 difference variance budget a b f_a f_b ->
  determineSigma rating_g2 difference variance
  = determineSigma_result
      (determineSigma_loop rating_g2 difference variance budget a b f_a f_b).
Proof.
  induction 1 as [ | budget a b f_a f_b a' b' f_a' f_b' _ IH Hapart Hbody ].
  - reflexivity.
  - rewrite IH. cbn [determineSigma_loop]. rewrite Hapart, Hbody. reflexivity.
Qed.

(** X1, in either reading: when a turn of the convergence loop starts
    with a non-finite [f_a] or [f_b], the first guard returns the
    volatility the solver was given, whatever the variance and the signs
    are. *)
Theorem determineSigma_nonfinite_guard {T : Type} {ops : Num.Ops T}
    (rating_g2 : Glicko2Rating T) (difference variance : T)
    (budget : nat) (a b f_a f_b : T) :
  determineSigma_at rating_g2 difference variance (S budget) a b f_a f_b ->
  determineSigma_apart a b = true ->
  Num.isFinite f_a && Num.isFinite f_b = false ->
  determineSigma rating_g2 difference variance = sigma_g2 rating_g2.
Proof.
  intros Hat Hapart Hfin.
  rewrite (determineSigma_at_value _ _ _ _ _ _ _ _ Hat).
  cbn [determineSigma_loop]. rewrite Hapart.
  unfold determineSigma_body.
  replace (negb (Num.isFinite f_a) || negb (Num.isFinite f_b)) with true.
  - reflexivity.
  - symmetry. rewrite <- negb_andb, Hfin. reflexivity.
Qed.

(** C5, in either reading: when a turn of the refinement loop starts (the
    run of [determineSigma] has arrived at the loop test with the bounds
    more than [EPSILON] apart and the iteration count below its cap) with
    [f_a * f_b >= 0], the solver returns the original volatility if
    [variance < 1e6]; otherwise it returns [volatility * 0.9], provided
    [f_a] and [f_b] are finite, so that the guard against non-finite
    values, which comes first in the loop body, lets them pass. *)
Theorem C5_invalid_bracket_fallback {T : Type} {ops : Num.Ops T}
    (rating_g2 : Glicko2Rating T) (difference variance : T)
    (budget : nat) (a b f_a f_b : T) :
  determineSigma_at rating_g2 difference variance (S budget) a b f_a f_b ->
  determineSigma_apart a b = true ->
  Num.leb (Num.lit 0) (Num.mul f_a f_b) = true ->
  (Num.ltb variance (Num.lit 1e6) = true ->
   determineSigma rating_g2 difference variance = sigma_g2 rating_g2) /\
  (Num.ltb variance (Num.lit 1e6) = false ->
   Num.isFinite f_a = true -> Num.isFinite f_b = true ->
   determineSigma rating_g2 difference variance
   = Num.mul (sigma_g2 rating_g2) (Num.lit 0.9)).
Proof.
  intros Hat Hapart Hsign.
  rewrite (determineSigma_at_value _ _ _ _ _ _ _ _ Hat).
  cbn [determineSigma_loop]. rewrite Hapart.
  split.
  - intros Hv. unfold determineSigma_body.
    destruct (negb (Num.isFinite f_a) || negb (Num.isFinite f_b)); [reflexivity | ].
    rewrite Hsign, Hv. reflexivity.
  - intros Hv Ha Hb.
    rewrite (determineSigma_body_invalid_finite _ _ _ _ _ _ _ Ha Hb Hsign), Hv.
    reflexivity.
Qed.

(** Two runs in binary64 whose first bracket is invalid, as the update
    starts them.  A player with rating 1500, deviation 250 and volatility
    3e-162 wins a completed contest 6 to 0, once against the default
    rating and once against a rating of deviation 1e6, for which the
    variance reaches its cap 1e6.  The square of the volatility is the
    subnormal 2^-1073, so [alpha = -743.74692474082133]; [alpha - TAU] is
    below -700, which stops the bracketing loop at [k = 1] and leaves
    [b = alpha - 0.5]; in [f(alpha)] the product with [exp(alpha)]
    underflows, so [f_a = -0] and [f_b = 2]: the product [f_a * f_b] is
    [-0], and [-0 >= 0] holds.  Against the default rating the volatility
    is returned as it is, at the capped variance it is returned multiplied
    by 0.9, and the update hands both on. *)
Lemma C5_invalid_bracket_fallback_witness :
  let ops := binary64 exp_table log_table in
  let player := mkPlayerRating 1500%float 250%float 3e-162%float in
  let player_g2 := mkGlicko2Rating 0%float 1.4391156231543341%float 3e-162%float in
  (@scaleDown float ops player = player_g2 /\
   @determineSigma_f float ops player_g2 0.39168731696140702 6.5180994406360924
     (-743.74692474082133) = (-0) /\
   @determineSigma_f float ops player_g2 0.39168731696140702 6.5180994406360924
     (-744.24692474082133) = 2 /\
   @determineSigma float ops player_g2 0.39168731696140702 6.5180994406360924 = 3e-162 /\
   @determineSigma float ops player_g2 0.00015754460977747268 1e6 = 3e-162 * 0.9 /\
   player_new (@calculateGlickoTRUpdate float ops player (mkPlayerRating 1500 250 0.06)
                 6 0 "completed"%string)
   = mkPlayerRating 1606.9413931758988 217.78367627448768 3e-162 /\
   player_new (@calculateGlickoTRUpdate float ops player (mkPlayerRating 1500 1e6 0.06)
                 6 0 "completed"%string)
   = mkPlayerRating 1500.0566812244049 249.99999357447717 2.6999999999999998e-162)%float.
Proof.
  cbv zeta.
  split; [ vm_compute; reflexivity | ].
  split; [ vm_compute; reflexivity | ].
  split; [ vm_compute; reflexivity | ].
  split; [ | split; [ | split; lazy; reflexivity ] ].
  - refine (proj1 (@C5_invalid_bracket_fallback float
                     (binary64 exp_table log_table)
                     (mkGlicko2Rating 0%float 1.4391156231543341%float 3e-162%float)
                     0.39168731696140702%float 6.5180994406360924%float
                     99 _ _ _ _ (at_start _ _ _) _ _) _);
      vm_compute; reflexivity.
  - refine (proj2 (@C5_invalid_bracket_fallback float
                     (binary64 exp_table log_table)
                     (mkGlicko2Rating 0%float 1.4391156231543341%float 3e-162%float)
                     0.00015754460977747268%float 1e6%float
                     99 _ _ _ _ (at_start _ _ _) _ _) _ _ _);
      vm_compute; reflexivity.
Defined.

(** ** Symmetry of the update *)

(** In either reading.  The update treats the two competitors alike but
    for one step: the player's share of the games is
    [playerGames / totalGames] and the opponent's is [1.0] less that
    share.  So exchanging the competitors exchanges the results whenever
    the two shares computed from the exchanged scores are those computed
    from the original ones (and the total of the games is the same). *)
Lemma calculateGlickoTRUpdate_swap {T : Type} {ops : Num.Ops T}
    (playerRating opponentRating : PlayerRating T)
    (playerGames opponentGames : T) (status : string) :
  let totalGames := Num.add playerGames opponentGames in
  let share := fun games : T =>
    if Num.leb totalGames (Num.lit 0) then Num.lit 0.5 else Num.div games totalGames in
  Num.add opponentGames playerGames = totalGames ->
  share opponentGames = Num.sub (Num.lit 1.0) (share playerGames) ->
  Num.sub (Num.lit 1.0) (share opponentGames) = share playerGames ->
  calculateGlickoTRUpdate opponentRating playerRating opponentGames playerGames status
  = mkUpdateResult
      (opponent_new
         (calculateGlickoTRUpdate playerRating opponentRating playerGames opponentGames status))
      (player_new
         (calculateGlickoTRUpdate playerRating opponentRating playerGames opponentGames status)).
Proof.
  cbv zeta. intros Hsum Hshare Hback.
  unfold calculateGlickoTRUpdate, calculateMatchWeight.
  rewrite Hsum.
  match goal with
  | |- context [if ?c then mkUpdateResult playerRating opponentRating else _] => destruct c
  end; [reflexivity | ].
  cbn [player_new opponent_new].
  rewrite Hback, Hshare. reflexivity.
Qed.

(** In exact arithmetic the opponent's share of the games is the
    complement of the player's. *)
Lemma actual_score_swap (playerGames opponentGames : R) :
  (if Rleb (playerGames + opponentGames) 0 then 5 * / 10
   else opponentGames / (playerGames + opponentGames))
  = 1 - (if Rleb (playerGames + opponentGames) 0 then 5 * / 10
           else playerGames / (playerGames + opponentGames)).
Proof.
  case_cmp (Rleb (playerGames + opponentGames) 0); [lra | ].
  field. lra.
Qed.

(** C6 (as amended): exchanging the two competitors, ratings and scores
    together, exchanges the two ratings the update returns

    - in exact arithmetic, for all ratings, scores and statuses;
    - in binary64, whatever [Math.exp] and [Math.log] are, whenever the
      shares of the games complement each other without rounding error:
      [sB / total] is [1.0 - sA / total] and [1.0 - sB / total] is
      [sA / total] (0.5 both ways when the total is not positive).

    For other scores the two results can differ by rounding errors, as
    the contest scored 7 to 3 below shows. *)
Theorem C6_update_symmetric_when_shares_complement :
  (forall (playerRating opponentRating : PlayerRating R)
          (playerGames opponentGames : R) (status : string),
     calculateGlickoTRUpdate opponentRating playerRating opponentGames playerGames status
     = mkUpdateResult
         (opponent_new
            (calculateGlickoTRUpdate playerRating opponentRating
               playerGames opponentGames status))
         (player_new
            (calculateGlickoTRUpdate playerRating opponentRating
               playerGames opponentGames status))) /\
  (forall (exp_approx log_approx : float -> float)
          (playerRating opponentRating : PlayerRating float)
          (playerGames opponentGames : float) (status : string),
     let update64 := @calculateGlickoTRUpdate float (binary64 exp_approx log_approx) in
     let totalGames := (playerGames + opponentGames)%float in
     let share := fun games : float =>
       (if totalGames <=? 0 then 0.5 else games / totalGames)%float in
     share opponentGames = (1 - share playerGames)%float ->
     (1 - share opponentGames)%float = share playerGames ->
     update64 opponentRating playerRating opponentGames playerGames status
     = mkUpdateResult
         (opponent_new
            (update64 playerRating opponentRating playerGames opponentGames status))
         (player_new
            (update64 playerRating opponentRating playerGames opponentGames status))).
Proof.
  split.
  - intros playerRating opponentRating playerGames opponentGames status.
    apply calculateGlickoTRUpdate_swap; exact_ops.
    + apply Rplus_comm.
    + rewrite (actual_score_swap playerGames opponentGames). same_real.
    + rewrite (actual_score_swap playerGames opponentGames).
      set (actual := if Rleb (playerGames + opponentGames) 0 then 5 * / 10
                     else playerGames / (playerGames + opponentGames)).
      lra.
  - intros exp_approx log_approx playerRating opponentRating playerGames opponentGames status.
    cbv zeta. intros Hshare Hback.
    apply (@calculateGlickoTRUpdate_swap float (binary64 exp_approx log_approx)).
    + apply float_add_comm.
    + exact Hshare.
    + exact Hback.
Qed.

(** At the scores 9 and 3 the shares are 0.75 and 0.25, which complement
    each other exactly; so do 1 and 0 at the scores 6 and 0. *)
Lemma C6_update_symmetric_when_shares_complement_witness :
  ((3 / (9 + 3) = 1 - 9 / (9 + 3))%float /\ (1 - 3 / (9 + 3) = 9 / (9 + 3))%float) /\
  (forall (exp_approx log_approx : float -> float)
          (playerRating opponentRating : PlayerRating float),
     let update64 := @calculateGlickoTRUpdate float (binary64 exp_approx log_approx) in
     update64 opponentRating playerRating 3%float 9%float "completed"%string
     = mkUpdateResult
         (opponent_new (update64 playerRating opponentRating 9%float 3%float "completed"%string))
         (player_new (update64 playerRating opponentRating 9%float 3%float "completed"%string)) /\
     update64 opponentRating playerRating 0%float 6%float "completed"%string
     = mkUpdateResult
         (opponent_new (update64 playerRating opponentRating 6%float 0%float "completed"%string))
         (player_new (update64 playerRating opponentRating 6%float 0%float "completed"%string))).
Proof.
  split; [ split; vm_compute; reflexivity | ].
  intros exp_approx log_approx playerRating opponentRating. cbv zeta. split.
  - apply (proj2 C6_update_symmetric_when_shares_complement exp_approx log_approx
             playerRating opponentRating 9%float 3%float "completed"%string);
      vm_compute; reflexivity.
  - apply (proj2 C6_update_symmetric_when_shares_complement exp_approx log_approx
             playerRating opponentRating 6%float 0%float "completed"%string);
      vm_compute; reflexivity.
Defined.

(** C6 (as stated) fails in the binary64 reading, whatever [Math.exp] and
    [Math.log] are.  Two competitors with rating 1500, deviation 250 and
    volatility 1e200 play a completed contest scored 7 to 3.  The share
    of the loser is [3 / 10] when the loser is the player and
    [1.0 - 7 / 10] when the loser is the opponent, and these two binary64
    values differ; the loser's new rating is 1322.595430102102 in the
    first case and 1322.5954301021022 in the second. *)
Lemma C6_swap_inexact_binary64 :
  ~ (exists exp_approx log_approx : float -> float,
       forall (playerRating opponentRating : PlayerRating float)
              (playerGames opponentGames : float) (status : string),
         @calculateGlickoTRUpdate float (binary64 exp_approx log_approx)
           opponentRating playerRating opponentGames playerGames status
         = mkUpdateResult
             (opponent_new
                (@calculateGlickoTRUpdate float (binary64 exp_approx log_approx)
                   playerRating opponentRating playerGames opponentGames status))
             (player_new
                (@calculateGlickoTRUpdate float (binary64 exp_approx log_approx)
                   playerRating opponentRating playerGames opponentGames status))).
Proof.
  intros (exp_approx & log_approx & H).
  specialize (H (mkPlayerRating 1500 250 1e200)%float (mkPlayerRating 1500 250 1e200)%float
                7%float 3%float "completed"%string).
  apply (f_equal (fun r => mu (player_new r))) in H. cbn [player_new] in H.
  revert H. apply float_neq; lazy; reflexivity.
Qed.

(** The values behind the counterexample, in binary64. *)
Lemma swap_inexact_binary64_values (exp_approx log_approx : float -> float) :
  let update64 := @calculateGlickoTRUpdate float (binary64 exp_approx log_approx) in
  let rating := mkPlayerRating 1500%float 250%float 1e200%float in
  ((3 / (3 + 7) =? 1 - 7 / (7 + 3)) = false /\
   mu (player_new (update64 rating rating 3 7 "completed"%string)) = 1322.595430102102 /\
   mu (opponent_new (update64 rating rating 7 3 "completed"%string)) = 1322.5954301021022)%float.
Proof.
  cbv zeta. repeat split; lazy; reflexivity.
Qed.

(** ** Volatility solver: the bounds never leave the initial bracket *)

(** The regula falsi point of two bounds whose function values have
    opposite signs lies between the bounds. *)
Lemma regula_falsi_between (lo hi a b f_a f_b : R) :
  f_a * f_b < 0 -> lo <= a <= hi -> lo <= b <= hi ->
  lo <= a + (a - b) * f_a / (f_b - f_a) <= hi.
Proof.
  intros Hsign [Hla Hah] [Hlb Hbh].
  set (d := f_b - f_a).
  set (t := f_a / d).
  assert (Hd : d <> 0) by (unfold d; nra).
  assert (Ht : t * d = f_a) by (unfold t; field; exact Hd).
  assert (Htd : (t + 1) * d = f_b) by (unfold d in *; lra).
  assert (Hbounds : -1 < t < 0).
  { destruct (Rlt_dec 0 f_a) as [Hpos | Hneg].
    - assert (f_b < 0) by nra. assert (d < 0) by (unfold d; lra). split; nra.
    - assert (f_a < 0) by nra. assert (0 < f_b) by nra.
      assert (0 < d) by (unfold d; lra). split; nra. }
  replace (a + (a - b) * f_a / d) with (a + (a - b) * t) by (unfold t; field; exact Hd).
  split; nra.
Qed.

Section SolverBounds.

Variable rating_g2 : Glicko2Rating R.
Variables difference variance : R.
Variables lo hi : R.

Let body := determineSigma_body rating_g2 difference variance.
Let loop := determineSigma_loop rating_g2 difference variance.

Lemma determineSigma_body_within (a b f_a f_b : R) :
  lo <= a <= hi -> lo <= b <= hi ->
  match body a b f_a f_b with
  | Leave exit => exit_within rating_g2 lo hi exit
  | Continue a' b' _ _ => lo <= a' <= hi /\ lo <= b' <= hi
  end.
Proof.
  intros Ha Hb. unfold body, determineSigma_body. exact_ops.
  cbn [negb orb].
  case_cmp (Rleb 0 (f_a * f_b)).
  { destruct (Rltb variance 1000000); cbn [exit_within]; [left | right]; same_real. }
  pose proof (regula_falsi_between lo hi a b f_a f_b Hcmp Ha Hb) as Hc.
  set (c := a + (a - b) * f_a / (f_b - f_a)) in *.
  set (f_c := determineSigma_f rating_g2 difference variance c).
  destruct (Rltb (f_c * f_b) 0).
  - destruct (Rltb (Rabs (f_c - f_b)) EPSILON); cbn [exit_within]; auto.
  - destruct (Rltb (Rabs (f_b + f_c)) (1 * / 1000000000000000)).
    + destruct (Rltb (Rabs (f_c - f_a * (5 * / 10))) EPSILON); cbn [exit_within]; auto.
    + destruct (Rltb (Rabs (f_c - f_a * (f_b / (f_b + f_c)))) EPSILON);
        cbn [exit_within]; auto.
Qed.

Lemma determineSigma_loop_within (budget : nat) :
  forall a b f_a f_b : R,
    lo <= a <= hi -> lo <= b <= hi ->
    exit_within rating_g2 lo hi (loop budget a b f_a f_b).
Proof.
  induction budget as [ | budget IH ]; intros a b f_a f_b Ha Hb.
  - exact Hb.
  - unfold loop. cbn [determineSigma_loop].
    destruct (determineSigma_apart a b); [ | exact Hb ].
    pose proof (determineSigma_body_within a b f_a f_b Ha Hb) as Hstep.
    fold body.
    destruct (body a b f_a f_b) as [exit | a' b' f_a' f_b'].
    + exact Hstep.
    + destruct Hstep as [Ha' Hb']. apply IH; assumption.
Qed.

End SolverBounds.

(** ** Volatility solver: the bracketing loop and the returned value *)

(** The bracketing loop is not cut short by its fuel: at the [k] it
    returns, the loop condition of the source is false. *)
Lemma determineSigma_k_stops {T : Type} {ops : Num.Ops T}
    (rating_g2 : Glicko2Rating T) (difference variance : T) (fuel : nat) :
  forall k : nat,
    (max_k <= fuel + k)%nat ->
    determineSigma_k_cond rating_g2 difference variance
      (determineSigma_k rating_g2 difference variance fuel k) = false.
Proof.
  induction fuel as [ | fuel IH ]; intros k Hk; cbn [determineSigma_k].
  - unfold determineSigma_k_cond.
    replace (k <? max_k)%nat with false; [reflexivity | ].
    symmetry. apply Nat.ltb_ge. lia.
  - destruct (determineSigma_k_cond rating_g2 difference variance k) eqn:Hcond.
    + apply IH. lia.
    + exact Hcond.
Qed.

Lemma determineSigma_k_fuel {T : Type} {ops : Num.Ops T}
    (rating_g2 : Glicko2Rating T) (difference variance : T) :
  determineSigma_k_cond rating_g2 difference variance
    (determineSigma_k rating_g2 difference variance max_k 1) = false.
Proof. apply determineSigma_k_stops. unfold max_k. lia. Qed.

Lemma exp_half_ln_square (s : R) : 0 < s -> exp (ln (s ^ 2) / 2) = s.
Proof.
  intros Hs.
  set (x := exp (ln (s ^ 2) / 2)).
  assert (Hx : 0 < x) by apply exp_pos.
  assert (Hxx : x * x = s ^ 2).
  { unfold x. rewrite <- exp_plus.
    replace (ln (s ^ 2) / 2 + ln (s ^ 2) / 2) with (ln (s ^ 2)) by lra.
    apply exp_ln. nra. }
  nra.
Qed.

(** When the squared difference does not exceed [phi^2 + variance] (the
    bracketing loop is used), the bounds stay at or below [ln(sigma^2)],
    and the solver returns a positive volatility no larger than the one
    it was given. *)
Lemma determineSigma_shrinks (rating_g2 : Glicko2Rating R) (difference variance : R) :
  0 < sigma_g2 rating_g2 ->
  difference ^ 2 <= phi_g2 rating_g2 ^ 2 + variance ->
  0 < determineSigma rating_g2 difference variance <= sigma_g2 rating_g2.
Proof.
  intros Hs Hd.
  unfold determineSigma. cbv zeta.
  set (b0 := determineSigma_b0 rating_g2 difference variance).
  change (@Num.log R exact (@Num.pow2 R exact (sigma_g2 rating_g2)))
    with (ln (sigma_g2 rating_g2 ^ 2)).
  set (alpha := ln (sigma_g2 rating_g2 ^ 2)).
  assert (Hb0 : b0 <= alpha).
  { unfold b0, determineSigma_b0, TAU. exact_ops.
    apply Rltb_false in Hd. rewrite Hd. fold alpha.
    pose proof (pos_INR (determineSigma_k rating_g2 difference variance max_k 1)).
    nra. }
  pose proof (determineSigma_loop_within rating_g2 difference variance b0 alpha max_iter
                alpha b0
                (determineSigma_f rating_g2 difference variance alpha)
                (determineSigma_f rating_g2 difference variance b0)
                (conj Hb0 (Rle_refl alpha)) (conj (Rle_refl b0) Hb0)) as Hexit.
  destruct (determineSigma_loop rating_g2 difference variance max_iter alpha b0
              (determineSigma_f rating_g2 difference variance alpha)
              (determineSigma_f rating_g2 difference variance b0)) as [value | b];
    cbn [determineSigma_result exit_within] in *.
  - destruct Hexit as [-> | ->]; lra.
  - exact_ops. split; [apply exp_pos | ].
    rewrite <- (exp_half_ln_square (sigma_g2 rating_g2) Hs). fold alpha.
    destruct Hexit as [_ [Hlt | ->]]; [ | apply Rle_refl ].
    left. apply exp_increasing. lra.
Qed.

(** ** The update at the default ratings *)

Lemma reduceImpact_square (rating_g2 : Glicko2Rating R) :
  0 < reduceImpact rating_g2 /\
  reduceImpact rating_g2 ^ 2 * (1 + 3 * phi_g2 rating_g2 ^ 2 / PI ^ 2) = 1.
Proof.
  unfold reduceImpact. exact_ops.
  set (q := 1 + 3 * phi_g2 rating_g2 ^ 2 / PI ^ 2).
  assert (Hq : 1 <= q).
  { unfold q. pose proof PI_RGT_0.
    assert (0 <= 3 * phi_g2 rating_g2 ^ 2 / PI ^ 2); [ | lra ].
    apply Rmult_le_pos; [nra | ].
    left. apply Rinv_0_lt_compat. nra. }
  assert (Hsq : 0 < sqrt q) by (apply sqrt_lt_R0; lra).
  assert (Hsq2 : sqrt q * sqrt q = q) by (apply sqrt_sqrt; lra).
  split.
  - apply Rdiv_lt_0_compat; lra.
  - rewrite <- Hsq2 at 2. field. lra.
Qed.

(** The new deviation is below the old one as soon as the information
    gained from the contest outweighs the volatility added. *)
Lemma new_deviation_below (p s vInv : R) :
  0 < p ->
  1 / p ^ 2 < 1 / (p ^ 2 + s ^ 2) + vInv ->
  1 / sqrt (1 / sqrt (p ^ 2 + s ^ 2) ^ 2 + vInv) < p.
Proof.
  intros Hp Hgain.
  rewrite pow2_sqrt by nra.
  set (X := 1 / (p ^ 2 + s ^ 2) + vInv) in *.
  assert (Hinv : 0 < 1 / p ^ 2) by (apply Rdiv_lt_0_compat; nra).
  assert (HX : 0 < X) by lra.
  set (y := sqrt X).
  assert (Hy : 0 < y) by (apply sqrt_lt_R0; exact HX).
  assert (Hyy : y * y = X) by (apply sqrt_sqrt; lra).
  assert (Hpp : p ^ 2 * (1 / p ^ 2) = 1) by (field; lra).
  assert (Hpy : 1 < p * y).
  { assert (1 < (p * y) * (p * y)).
    { replace ((p * y) * (p * y)) with (p ^ 2 * X) by (rewrite <- Hyy; ring).
      rewrite <- Hpp. apply Rmult_lt_compat_l; [nra | exact Hgain]. }
    assert (0 < p * y) by nra. nra. }
  assert (Hz : 1 / y * y = 1) by (field; lra).
  nra.
Qed.

(** Two competitors with the same rating are each expected to take half
    of the games. *)
Lemma default_expectScore (impact : R) :
  expectScore (scaleDown createDefaultRating) (scaleDown createDefaultRating) impact
  = 5 * / 10.
Proof.
  unfold expectScore, CLAMP_EPSILON. exact_ops.
  replace (- impact * (mu_g2 (scaleDown (@createDefaultRating R _))
                       - mu_g2 (scaleDown (@createDefaultRating R _)))) with 0 by ring.
  rewrite exp_0.
  replace (1 / (1 + 1)) with (5 * / 10) by lra.
  rewrite Rmin_left by lra. rewrite Rmax_right by lra. reflexivity.
Qed.

(** C7: with both competitors at the default rating (1500, 250, 0.06) and
    a completed contest scored 6 to 0, the first competitor's new rating is
    above 1500, the second's is below 1500, and both new deviations are
    below 250. *)
Theorem C7_default_six_love :
  let r := calculateGlickoTRUpdate createDefaultRating createDefaultRating 6 0 "completed" in
  1500 < mu (player_new r) /\ mu (opponent_new r) < 1500 /\
  phi (player_new r) < 250 /\ phi (opponent_new r) < 250.
Proof.
  unfold calculateGlickoTRUpdate.
  rewrite calculateMatchWeight_completed.
  exact_ops.
  case_cmp (Rleb 1 0); [lra | ].
  rewrite !default_expectScore.
  case_cmp (Rleb (6 + 0) 0); [lra | ].
  set (p := scaleDown createDefaultRating).
  set (g := reduceImpact p).
  set (v := Rmin (1 / (g ^ 2 * (5 * / 10) * (1 - 5 * / 10))) 1000000).
  set (dA := 1 * g * (6 / (6 + 0) - 5 * / 10)).
  set (dB := 1 * g * (1 - 6 / (6 + 0) - 5 * / 10)).
  set (vInv := 1 * g ^ 2 * (5 * / 10) * (1 - 5 * / 10)).
  set (sA := determineSigma p dA v).
  set (sB := determineSigma p dB v).
  set (P := phi_g2 p).
  assert (HP : P = 250 / 173.7178).
  { unfold P, p, scaleDown, createDefaultRating, DEFAULT_PHI, SCALING_FACTOR.
    cbn [phi phi_g2]. exact_ops. lra. }
  assert (Hmu : mu_g2 p = 0).
  { unfold p, scaleDown, createDefaultRating, DEFAULT_MU, SCALING_FACTOR.
    cbn [mu mu_g2]. exact_ops. lra. }
  assert (Hsig : sigma_g2 p = 0.06).
  { unfold p, scaleDown, createDefaultRating, DEFAULT_SIGMA.
    cbn [sigma sigma_g2]. exact_ops. lra. }
  destruct (reduceImpact_square p) as [Hg Hgq]. fold g P in Hg, Hgq.
  assert (HPI : 9 < PI ^ 2) by (pose proof PI2_3_2; nra).
  assert (HPpos : 0 < P) by (rewrite HP; lra).
  assert (HP2 : 2.0 < P ^ 2 < 2.1) by (rewrite HP; lra).
  assert (Hg2 : 0.58 < g ^ 2 <= 1).
  { set (e := 3 * P ^ 2 / PI ^ 2) in *.
    assert (0 < e < 0.7).
    { unfold e. split.
      - apply Rdiv_lt_0_compat; nra.
      - apply (Rmult_lt_reg_r (PI ^ 2)); [lra | ].
        replace (3 * P ^ 2 / PI ^ 2 * PI ^ 2) with (3 * P ^ 2) by (field; apply PI_neq0).
        nra. }
    assert (0 < g ^ 2) by nra.
    split; nra. }
  assert (Hv : 0 < v).
  { unfold v. apply Rmin_glb_lt; [ | lra ].
    apply Rdiv_lt_0_compat; nra. }
  assert (HdA : dA = g / 2) by (unfold dA; lra).
  assert (HdB : dB = - (g / 2)) by (unfold dB; lra).
  assert (HsA : 0 < sA <= 0.06).
  { rewrite <- Hsig. apply determineSigma_shrinks; [lra | ].
    fold P. rewrite HdA. nra. }
  assert (HsB : 0 < sB <= 0.06).
  { rewrite <- Hsig. apply determineSigma_shrinks; [lra | ].
    fold P. rewrite HdB. nra. }
  assert (HvInv : vInv = g ^ 2 / 4) by (unfold vInv; lra).
  assert (Hgain : forall s : R, 0 < s <= 0.06 -> 1 / P ^ 2 < 1 / (P ^ 2 + s ^ 2) + vInv).
  { intros s Hs. rewrite HvInv.
    assert (Hs2 : 0 <= s ^ 2 <= 0.0036) by nra.
    assert (1 / P ^ 2 - 1 / (P ^ 2 + s ^ 2) = s ^ 2 / (P ^ 2 * (P ^ 2 + s ^ 2)))
      as Hdiff by (field; nra).
    assert (s ^ 2 / (P ^ 2 * (P ^ 2 + s ^ 2)) < 0.001).
    { apply (Rmult_lt_reg_r (P ^ 2 * (P ^ 2 + s ^ 2))); [nra | ].
      replace (s ^ 2 / (P ^ 2 * (P ^ 2 + s ^ 2)) * (P ^ 2 * (P ^ 2 + s ^ 2)))
        with (s ^ 2) by (field; nra).
      nra. }
    lra. }
  set (nA := 1 / sqrt (1 / sqrt (P ^ 2 + sA ^ 2) ^ 2 + vInv)).
  set (nB := 1 / sqrt (1 / sqrt (P ^ 2 + sB ^ 2) ^ 2 + vInv)).
  assert (HnA : nA < P) by (apply new_deviation_below; auto).
  assert (HnB : nB < P) by (apply new_deviation_below; auto).
  assert (Hpos : forall s : R, 0 < 1 / sqrt (1 / sqrt (P ^ 2 + s ^ 2) ^ 2 + vInv)).
  { intros s. apply Rdiv_lt_0_compat; [lra | ].
    apply sqrt_lt_R0. rewrite pow2_sqrt by nra.
    assert (0 < 1 / (P ^ 2 + s ^ 2)) by (apply Rdiv_lt_0_compat; nra).
    nra. }
  pose proof (Hpos sA) as HnA0. fold nA in HnA0.
  pose proof (Hpos sB) as HnB0. fold nB in HnB0.
  unfold scaleUp, DEFAULT_MU, SCALING_FACTOR.
  cbn [player_new opponent_new mu phi mu_g2 phi_g2 sigma_g2].
  exact_ops.
  rewrite Hmu.
  rewrite HP in HnA, HnB.
  assert (HgainA : 0 < nA ^ 2 * dA) by (rewrite HdA; nra).
  assert (HlossB : nB ^ 2 * dB < 0) by (rewrite HdB; nra).
  split; [ | split; [ | split ] ].
  - eapply Rlt_le_trans; [ | apply Rmax_r ].
    apply Rmin_glb_lt; lra.
  - apply Rmax_lub_lt; [lra | ].
    eapply Rle_lt_trans; [apply Rmin_l | lra].
  - lra.
  - lra.
Qed.

(** ** The binary64 reading: literals and an overflowing volatility *)

(** The literals of the program denote the binary64 values JavaScript
    parses them to. *)
Lemma binary64_literals :
  (B64.lit 173.7178 = 173.7178 /\ B64.lit 1500.0 = 1500 /\ B64.lit 250.0 = 250 /\
   B64.lit 0.06 = 0.06 /\ B64.lit 1e-15 = 1e-15 /\ B64.lit 1e6 = 1e6 /\
   B64.lit 0.000001 = 0.000001 /\ B64.lit 0.8 = 0.8 /\ B64.lit 0.9 = 0.9 /\
   B64.lit 1e-1 = 0.1 /\ B64.lit 0.5 = 0.5 /\ B64.lit 5000 = 5000 /\
   B64.lit 700 = 700 /\ B64.lit 18.0 = 18)%float.
Proof. repeat split; vm_compute; reflexivity. Qed.

(** X11.  The retirement ramp at the totals 9, 18, 36 and 0, in binary64,
    whatever [Math.exp] and [Math.log] are. *)
Lemma binary64_retired_weights (exp_approx log_approx : float -> float) :
  (@calculateMatchWeight float (binary64 exp_approx log_approx) "retired" 5 4 = 0.4 /\
   @calculateMatchWeight float (binary64 exp_approx log_approx) "retired" 12 6 = 0.8 /\
   @calculateMatchWeight float (binary64 exp_approx log_approx) "retired" 30 6 = 0.8 /\
   @calculateMatchWeight float (binary64 exp_approx log_approx) "retired" 0 0 = 0)%float.
Proof. repeat split; vm_compute; reflexivity. Qed.

(** C1 fails in the binary64 reading, whatever [Math.exp] and [Math.log]
    return outside their special cases.  A player with rating 1500,
    deviation 250 and the finite positive volatility 1e200 meets a default
    opponent in a completed contest scored 6 to 0: [sigma ** 2] overflows
    to [Infinity], so [alpha], [a] and [b] are all [Infinity], [b - a] is
    [NaN], the convergence loop and its [isFinite] guards are never
    entered, and [determineSigma] returns [Math.exp(Infinity)].  The new
    volatility of the player is [Infinity], while the new rating and
    deviation are finite. *)
Theorem C1_volatility_overflow_returns_infinity (exp_approx log_approx : float -> float) :
  let playerRating := mkPlayerRating 1500%float 250%float 1e200%float in
  let opponentRating := mkPlayerRating 1500%float 250%float 0.06%float in
  let r := @calculateGlickoTRUpdate float (binary64 exp_approx log_approx)
             playerRating opponentRating 6%float 0%float "completed" in
  (PrimFloat.is_finite (sigma playerRating) = true /\
   PrimFloat.ltb 0%float (sigma playerRating) = true) /\
  @determineSigma float (binary64 exp_approx log_approx)
    (scaleDown (ops := binary64 exp_approx log_approx) playerRating) 0.3%float 6.5%float
  = infinity /\
  sigma (player_new r) = infinity /\
  PrimFloat.is_finite (sigma (player_new r)) = false /\
  PrimFloat.is_finite (mu (player_new r)) = true /\
  PrimFloat.is_finite (phi (player_new r)) = true.
Proof.
  cbv zeta. repeat split; lazy; reflexivity.
Qed.

(** * Further properties *)

(** ** Volatility solver: the bracketing loop *)

Lemma determineSigma_k_bounds {T : Type} {ops : Num.Ops T}
    (rating_g2 : Glicko2Rating T) (difference variance : T) (fuel : nat) :
  forall k : nat,
    (k <= determineSigma_k rating_g2 difference variance fuel k)%nat /\
    ((k <= max_k)%nat ->
     (determineSigma_k rating_g2 difference variance fuel k <= max_k)%nat).
Proof.
  induction fuel as [ | fuel IH ]; intros k; cbn [determineSigma_k].
  - split; intros; lia.
  - destruct (determineSigma_k_cond rating_g2 difference variance k) eqn:Hcond.
    + destruct (IH (k + 1)%nat) as [Hlow Hhigh].
      unfold determineSigma_k_cond in Hcond.
      apply andb_prop in Hcond as [Hcond _]. apply andb_prop in Hcond as [Hk _].
      apply Nat.ltb_lt in Hk.
      split; intros; [lia | apply Hhigh; lia].
    + split; intros; lia.
Qed.

(** X2: in either reading the bracketing loop of [determineSigma] ends
    with [1 <= k <= 100], and it ends because its condition is false at that
    [k], not because the fuel of the model ran out. *)
Theorem determineSigma_k_range {T : Type} {ops : Num.Ops T}
    (rating_g2 : Glicko2Rating T) (difference variance : T) :
  (1 <= determineSigma_k rating_g2 difference variance max_k 1 <= 100)%nat /\
  determineSigma_k_cond rating_g2 difference variance
    (determineSigma_k rating_g2 difference variance max_k 1) = false.
Proof.
  destruct (determineSigma_k_bounds rating_g2 difference variance max_k 1) as [Hlow Hhigh].
  split; [split | ].
  - exact Hlow.
  - apply Hhigh. unfold max_k. lia.
  - apply determineSigma_k_fuel.
Qed.

(** ** Volatility solver: non-finite values and underflow in binary64 *)

(** A run of the update in binary64 that the guard against non-finite
    values ends (a witness for X1).  A player with rating 1500, deviation 1e200 and
    volatility 1 wins a completed contest 6 to 0 against the default
    rating.  The square of the internal deviation 5.756e197 is
    [Infinity], so [f] is [NaN] at both bounds [a = 0] and [b = -0.5], and
    the update returns the volatility 1 unchanged. *)
Lemma determineSigma_nonfinite_guard_witness :
  let ops := binary64 exp_table log_table in
  let player := mkPlayerRating 1500%float 1e200%float 1%float in
  let player_g2 := mkGlicko2Rating 0%float 5.756462492617336e+197%float 1%float in
  (@scaleDown float ops player = player_g2 /\
   @determineSigma float ops player_g2 0.39168731696140702 6.5180994406360924 = 1 /\
   player_new (@calculateGlickoTRUpdate float ops player (mkPlayerRating 1500 250 0.06)
                 6 0 "completed"%string)
   = mkPlayerRating 1943.5114247447445 443.51142474474466 1)%float.
Proof.
  cbv zeta.
  split; [ vm_compute; reflexivity | ].
  split; [ | lazy; reflexivity ].
  refine (@determineSigma_nonfinite_guard float (binary64 exp_table log_table)
            (mkGlicko2Rating 0%float 5.756462492617336e+197%float 1%float)
            0.39168731696140702%float 6.5180994406360924%float
            99 _ _ _ _ (at_start _ _ _) _ _);
    vm_compute; reflexivity.
Defined.


(** ** Expected score in binary64 *)

(** X4.  In binary64, whatever [Math.exp] is, the expected score is [NaN] or
    lies within [0.1, 0.9]; the upper bound [1.0 - CLAMP_EPSILON] is the
    binary64 value 0.9. *)
Theorem expectScore_clamped_binary64 (exp_approx log_approx : float -> float)
    (rating_g2 other_rating_g2 : Glicko2Rating float) (impact : float) :
  let score := @expectScore float (binary64 exp_approx log_approx)
                 rating_g2 other_rating_g2 impact in
  (@Num.sub float (binary64 exp_approx log_approx)
     (@Num.lit float (binary64 exp_approx log_approx) 1.0)
     (@CLAMP_EPSILON float (binary64 exp_approx log_approx)) = 0.9)%float /\
  (is_nan score = true \/ ((0.1 <=? score)%float = true /\ (score <=? 0.9)%float = true)).
Proof.
  cbv zeta. split; [ vm_compute; reflexivity | ].
  unfold expectScore, CLAMP_EPSILON.
  cbn [Num.max Num.min Num.lit Num.sub Num.div Num.add binary64].
  change (B64.lit 1.0 - B64.lit 1e-1)%float with 0.9%float.
  change (B64.lit 1e-1) with 0.1%float.
  set (x := (_ / _)%float).
  destruct (is_nan x) eqn:Hnan.
  - left. unfold B64.Math_min. rewrite Hnan. reflexivity.
  - right.
    destruct (Math_min_upper x 0.9 Hnan eq_refl) as [Hn Hle].
    apply Math_max_lower; try assumption; reflexivity.
Qed.

(** ** The request handler *)


(** X6.  The games of a match in binary64: the entries of the sets are added
    up per player, an entry that is missing, zero or [NaN] counting as
    0. *)
Theorem gamesWon_binary64 (exp_approx log_approx : float -> float) :
  let gamesWon64 := @gamesWon float (binary64 exp_approx log_approx) in
  (gamesWon64 nil = (0, 0) /\
   gamesWon64 (mkSetScore (Some 6) (Some 4) :: mkSetScore (Some 3) (Some 6)
               :: mkSetScore (Some 7) (Some 5) :: nil) = (16, 15) /\
   gamesWon64 (mkSetScore (Some 6) None :: mkSetScore (Some nan) (Some 2)
               :: mkSetScore (Some (-0)) (Some 0) :: nil) = (6, 2))%float.
Proof.
  cbv zeta. repeat split; vm_compute; reflexivity.
Qed.


(** X8.  One win and one loss are credited for a match: the win to player 1
    and the loss to player 2 when the winner is player 1, and the other
    way round otherwise. *)
Theorem winLossIncrements_one_each (winner_id player1_id : string) :
  let inc := winLossIncrements winner_id player1_id in
  (p1_wins_inc inc + p2_wins_inc inc = 1)%nat /\
  (p1_losses_inc inc + p2_losses_inc inc = 1)%nat /\
  (p1_wins_inc inc + p1_losses_inc inc = 1)%nat /\
  (p2_wins_inc inc + p2_losses_inc inc = 1)%nat /\
  (p1_wins_inc inc = 1%nat <-> winner_id = player1_id) /\
  p2_wins_inc inc = p1_losses_inc inc.
Proof.
  cbv zeta. unfold winLossIncrements.
  destruct (String.eqb_spec winner_id player1_id) as [E | E]; cbn;
    repeat split; auto; try discriminate; try tauto.
Qed.

(** X9.  The status of the error response is 400, 404 or 500: 400 when the
    message includes "Missing" or "missing required score data", whatever
    else it includes; 404 when it does not but includes "not found" or
    "Could not find"; 500 otherwise.  The messages the handler raises
    itself get 400 (no match id, no score data) and 404 (no match, not both
    profiles). *)
Theorem errorStatus_cases (errorMessage : string) :
  errorStatus errorMessage
  = (if includes errorMessage "Missing"
        || includes errorMessage "missing required score data" then 400
     else if includes errorMessage "not found"
             || includes errorMessage "Could not find" then 404
     else 500)%nat /\
  errorStatus "Missing matchId in request body" = 400%nat /\
  errorStatus "Match 17 is missing required score data (winner_id, sets)." = 400%nat /\
  errorStatus "Match with ID 17 not found." = 404%nat /\
  errorStatus "Could not find both player profiles for IDs: a, b" = 404%nat /\
  errorStatus "An unexpected error occurred." = 500%nat /\
  errorStatus "Match fetch error: Missing column, relation not found" = 400%nat.
Proof.
  split; [ | repeat split; vm_compute; reflexivity ].
  unfold errorStatus.
  destruct (includes errorMessage "Missing" || includes errorMessage "missing required score data");
    destruct (includes errorMessage "not found" || includes errorMessage "Could not find");
    reflexivity.
Qed.

(** ** The update at the default ratings, in binary64 *)

(** X10.  The scenario of two default ratings and a completed contest
    scored 6 to 0, run in binary64 with [Math.exp] and [Math.log] correctly rounded
    on the arguments visited.  The bracketing loop of the solver runs up
    to its cap [k = 100] for either competitor.  The winner's rating rises
    to 1607.08, the loser's falls to 1392.92, and both deviations fall to
    217.93; the volatility falls slightly below 0.06. *)
Theorem default_six_love_binary64 :
  let ops := binary64 exp_table log_table in
  let default64 := @createDefaultRating float ops in
  let r := @calculateGlickoTRUpdate float ops default64 default64
             6%float 0%float "completed" in
  (r = mkUpdateResult
         (mkPlayerRating 1607.0823945281973 217.92720197873322 0.059998457058830196)
         (mkPlayerRating 1392.9176054718027 217.92720197873322 0.059998457058830196) /\
   (mu default64 <? mu (player_new r)) = true /\
   (mu (opponent_new r) <? mu default64) = true /\
   (phi (player_new r) <? phi default64) = true /\
   (phi (opponent_new r) <? phi default64) = true /\
   (sigma (player_new r) <? sigma default64) = true /\
   @determineSigma_k float ops (@scaleDown float ops default64)
     0.39168731696140702 6.5180994406360924 max_k 1 = 100%nat)%float.
Proof.
  cbv zeta. repeat split; vm_compute; reflexivity.
Qed.
